(** * Cursory: a cursor-trail controller (src/cursory.js)

    A shallow embedding of the [Cursory] object of [src/cursory.js] and of
    the part of the browser it talks to (the children of [document.body],
    the [mousemove] listeners of [window], the animation-frame callbacks),
    followed by the properties of the controller.

    Numbers.  A JavaScript number is an IEEE 754 binary64 value.  The
    controller is written once over an interface [JSNumber] of the three
    arithmetic operations it uses, and instantiated twice: with Rocq's
    primitive [float] (binary64, round to nearest even: what the program
    computes), and with [xreal], the real numbers with one absorbing
    not-a-number element (the same program without rounding).

    Objects.  A configuration object is a record of optional fields: [None]
    is an absent key.  The marker count [trailLength] is an integer [Z]
    (negative ones included); the other numeric options are numbers of the
    interface.  Keys other than the six recognised ones, keys present with
    the value [undefined], and marker counts that are not integers are
    outside the model.

    Exceptions.  A call is a function from the state to an outcome: it
    returns, or it throws and leaves the state it had reached. *)

From Stdlib Require Import ZArith String List Bool Lia.
From Stdlib Require Import Floats.
From Stdlib Require Import Reals Lra.
Import ListNotations.

Set Implicit Arguments.

(** ** Numbers *)

Class JSNumber (num : Type) : Type := {
  add : num -> num -> num;
  sub : num -> num -> num;
  mul : num -> num -> num;
  (** the result of arithmetic on [undefined] *)
  NaN : num;
  (** the numeric literals of the source *)
  lit_0 : num;
  lit_0_2 : num;
  lit_0_5 : num;
  lit_0_7 : num;
  lit_10 : num
}.

(** binary64, as the program runs *)
#[export] Instance float_JSNumber : JSNumber float := {
  add := PrimFloat.add;
  sub := PrimFloat.sub;
  mul := PrimFloat.mul;
  NaN := PrimFloat.nan;
  lit_0 := 0%float;
  lit_0_2 := 0x1.999999999999ap-3%float;
  lit_0_5 := 0.5%float;
  lit_0_7 := 0x1.6666666666666p-1%float;
  lit_10 := 10%float
}.




(** ** Data model *)

Section Model.

Context {num : Type} {JSN : JSNumber num}.

(** A configuration object, complete or partial. *)
Record Config : Type := mkConfig {
  trailColor : option string;
  trailLength : option Z;
  trailSpeed : option num;
  cursorSize : option num;
  opacity : option num;
  followSpeed : option num
}.

(** [{}] *)
Definition empty_config : Config :=
  mkConfig None None None None None None.

Definition override {A : Type} (old new : option A) : option A :=
  match new with
  | Some v => Some v
  | None => old
  end.

(** [{ ...a, ...b }] *)
Definition spread (a b : Config) : Config :=
  {| trailColor := override (trailColor a) (trailColor b);
     trailLength := override (trailLength a) (trailLength b);
     trailSpeed := override (trailSpeed a) (trailSpeed b);
     cursorSize := override (cursorSize a) (cursorSize b);
     opacity := override (opacity a) (opacity b);
     followSpeed := override (followSpeed a) (followSpeed b) |}.

(** [defaultOptions] of [init] *)
Definition defaultOptions : Config :=
  {| trailColor := Some "#00ffea"%string;
     trailLength := Some 10%Z;
     trailSpeed := Some lit_0_5;
     cursorSize := Some lit_10;
     opacity := Some lit_0_7;
     followSpeed := Some lit_0_2 |}.

(** A numeric read of a property: an absent one is [undefined], and
    arithmetic on it gives NaN. *)
Definition to_number (v : option num) : num :=
  match v with
  | Some n => n
  | None => NaN
  end.

(** The inline style of a marker's [div].  A template string is kept as the
    value it interpolates: [style_width] holds [v] for [`${v}px`], and
    [style_transform] holds [(x, y)] for [`translate(${x}px, ${y}px)`]. *)
Record Style : Type := mkStyle {
  style_width : option num;
  style_height : option num;
  style_backgroundColor : option string;
  style_opacity : option num;
  style_position : string;
  style_pointerEvents : string;
  style_borderRadius : string;
  style_transform : num * num
}.

(** A [div] made by [document.createElement]: [node] is its identity. *)
Record Element : Type := mkElement {
  node : nat;
  classList : list string;
  style : Style
}.

(** An entry of [Cursory.trails]: [{ element, x, y }]. *)
Record Trail : Type := mkTrail {
  element : Element;
  x : num;
  y : num
}.

(** The state of the [Cursory] object: its data properties. *)
Record Cursory : Type := mkCursory {
  config : Config;
  trails : list Trail;
  maxTrails : option Z;
  animationFrame : option nat;
  isInitialized : bool;
  mouseX : num;
  mouseY : num
}.

(** The browser, as far as the controller touches it.  A function object
    made by [Function.prototype.bind] is a fresh identity each time; every
    [mousemove] listener the program registers is [trackMouse] bound to
    [Cursory], every frame callback is [animate] bound to [Cursory]. *)
Record Browser : Type := mkBrowser {
  body : list nat;
  nextNode : nat;
  mousemoveListeners : list nat;
  nextFunction : nat;
  frameCallbacks : list (nat * nat);
  nextHandle : nat
}.

Record World : Type := mkWorld {
  this : Cursory;
  window : Browser
}.

(** The object literal of the source (lines 10-17), on a page where nothing
    has run. *)
Definition Cursory0 : Cursory :=
  {| config := empty_config;
     trails := [];
     maxTrails := Some 10%Z;
     animationFrame := None;
     isInitialized := false;
     mouseX := lit_0;
     mouseY := lit_0 |}.

Definition Browser0 : Browser :=
  {| body := [];
     nextNode := 0;
     mousemoveListeners := [];
     nextFunction := 0;
     frameCallbacks := [];
     nextHandle := 1 |}.

Definition World0 : World := mkWorld Cursory0 Browser0.

(** ** Field updates *)

Definition set_config (v : Config) (c : Cursory) : Cursory :=
  mkCursory v (trails c) (maxTrails c) (animationFrame c) (isInitialized c)
    (mouseX c) (mouseY c).

Definition set_trails (v : list Trail) (c : Cursory) : Cursory :=
  mkCursory (config c) v (maxTrails c) (animationFrame c) (isInitialized c)
    (mouseX c) (mouseY c).

Definition set_maxTrails (v : option Z) (c : Cursory) : Cursory :=
  mkCursory (config c) (trails c) v (animationFrame c) (isInitialized c)
    (mouseX c) (mouseY c).

Definition set_animationFrame (v : option nat) (c : Cursory) : Cursory :=
  mkCursory (config c) (trails c) (maxTrails c) v (isInitialized c)
    (mouseX c) (mouseY c).

Definition set_isInitialized (v : bool) (c : Cursory) : Cursory :=
  mkCursory (config c) (trails c) (maxTrails c) (animationFrame c) v
    (mouseX c) (mouseY c).

Definition set_mouse (vx vy : num) (c : Cursory) : Cursory :=
  mkCursory (config c) (trails c) (maxTrails c) (animationFrame c)
    (isInitialized c) vx vy.

Definition set_body (v : list nat) (b : Browser) : Browser :=
  mkBrowser v (nextNode b) (mousemoveListeners b) (nextFunction b)
    (frameCallbacks b) (nextHandle b).

(** ** Calls: state, and exceptions that keep the state reached *)

Inductive Exn : Type :=
| TypeError       (* a property read on [undefined] *)
| NotFoundError.  (* [removeChild] of a node that is not a child *)

Inductive Outcome (A : Type) : Type :=
| Normal (a : A) (w : World)
| Thrown (e : Exn) (w : World).

Arguments Thrown {A} e w.

Definition M (A : Type) : Type := World -> Outcome A.

Definition ret {A : Type} (a : A) : M A := fun w => Normal a w.

Definition bind {A B : Type} (m : M A) (k : A -> M B) : M B :=
  fun w =>
    match m w with
    | Normal a w' => k a w'
    | Thrown e w' => Thrown e w'
    end.

Definition throw {A : Type} (e : Exn) : M A := fun w => Thrown e w.

Definition get_this : M Cursory := fun w => Normal (this w) w.

Definition update_this (f : Cursory -> Cursory) : M unit :=
  fun w => Normal tt (mkWorld (f (this w)) (window w)).

Definition get_window : M Browser := fun w => Normal (window w) w.

Definition update_window (f : Browser -> Browser) : M unit :=
  fun w => Normal tt (mkWorld (this w) (f (window w))).

(** The world a call leaves behind, however it ended. *)
Definition world_of {A : Type} (o : Outcome A) : World :=
  match o with
  | Normal _ w => w
  | Thrown _ w => w
  end.

End Model.

Declare Scope js_scope.
Delimit Scope js_scope with js.
Notation "x <- m ;; k" := (bind m (fun x => k))
  (at level 61, m at next level, right associativity) : js_scope.
Notation "m ;; k" := (bind m (fun _ => k))
  (at level 61, right associativity) : js_scope.
Open Scope js_scope.

Arguments Config num : clear implicits.
Arguments Style num : clear implicits.
Arguments Element num : clear implicits.
Arguments Trail num : clear implicits.
Arguments Cursory num : clear implicits.
Arguments World num : clear implicits.
Arguments Outcome num A : clear implicits.
Arguments Normal {num A} a w.
Arguments Thrown {num A} e w.
Arguments M num A : clear implicits.

(** ** The browser's side *)

Section Host.

Context {num : Type} {JSN : JSNumber num}.

#[local] Abbreviation M := (M num).

Definition without (n : nat) (l : list nat) : list nat :=
  filter (fun m => negb (Nat.eqb m n)) l.

Definition member (n : nat) (l : list nat) : bool :=
  existsb (Nat.eqb n) l.

(** [document.createElement('div')]: a node nobody holds yet. *)
Definition createElement : M nat :=
  fun w =>
    let b := window w in
    Normal (nextNode b)
      (mkWorld (this w)
         (mkBrowser (body b) (S (nextNode b)) (mousemoveListeners b)
            (nextFunction b) (frameCallbacks b) (nextHandle b))).

(** [document.body.appendChild(n)]: [n] becomes the last child. *)
Definition appendChild (n : nat) : M unit :=
  update_window (fun b => set_body (without n (body b) ++ [n]) b).

(** [document.body.removeChild(n)]: throws when [n] is not a child. *)
Definition removeChild (n : nat) : M unit :=
  b <- get_window ;;
  if member n (body b)
  then update_window (fun b => set_body (without n (body b)) b)
  else throw NotFoundError.

(** [f.bind(this)]: a new function object on every call. *)
Definition bindFunction : M nat :=
  fun w =>
    let b := window w in
    Normal (nextFunction b)
      (mkWorld (this w)
         (mkBrowser (body b) (nextNode b) (mousemoveListeners b)
            (S (nextFunction b)) (frameCallbacks b) (nextHandle b))).

(** [window.addEventListener('mousemove', f)]: a listener already in the
    list is not added again. *)
Definition addEventListener (f : nat) : M unit :=
  update_window (fun b =>
    mkBrowser (body b) (nextNode b)
      (if member f (mousemoveListeners b)
       then mousemoveListeners b
       else mousemoveListeners b ++ [f])
      (nextFunction b) (frameCallbacks b) (nextHandle b)).

(** [window.removeEventListener('mousemove', f)]: removes the listener that
    is the function object [f], if it is registered. *)
Definition removeEventListener (f : nat) : M unit :=
  update_window (fun b =>
    mkBrowser (body b) (nextNode b) (without f (mousemoveListeners b))
      (nextFunction b) (frameCallbacks b) (nextHandle b)).

(** [requestAnimationFrame(f)]: returns the handle of the request. *)
Definition requestAnimationFrame (f : nat) : M nat :=
  fun w =>
    let b := window w in
    Normal (nextHandle b)
      (mkWorld (this w)
         (mkBrowser (body b) (nextNode b) (mousemoveListeners b)
            (nextFunction b) (frameCallbacks b ++ [(nextHandle b, f)])
            (S (nextHandle b)))).

(** [cancelAnimationFrame(h)]: [null] names no request. *)
Definition cancelAnimationFrame (h : option nat) : M unit :=
  match h with
  | None => ret tt
  | Some h =>
      update_window (fun b =>
        mkBrowser (body b) (nextNode b) (mousemoveListeners b)
          (nextFunction b)
          (filter (fun r => negb (Nat.eqb (fst r) h)) (frameCallbacks b))
          (nextHandle b))
  end.

(** The browser takes the pending frame callbacks to run them. *)
Definition takeFrameCallbacks : M (list (nat * nat)) :=
  fun w =>
    let b := window w in
    Normal (frameCallbacks b)
      (mkWorld (this w)
         (mkBrowser (body b) (nextNode b) (mousemoveListeners b)
            (nextFunction b) [] (nextHandle b))).

(** ** Loops *)

(** [for (let i = 0; i < bound; i++) body], for a body that reads neither
    [i] nor changes [bound]. *)
Fixpoint times (n : nat) (body : M unit) : M unit :=
  match n with
  | O => ret tt
  | S k => body ;; times k body
  end.

(** How often [i < bound] holds from [i = 0]: never for [undefined] or NaN
    ([None]), nor for a bound that is not positive. *)
Definition iterations (bound : option Z) : nat :=
  match bound with
  | Some n => Z.to_nat n
  | None => O
  end.

(** [l.forEach(f)] *)
Fixpoint forEach {A : Type} (l : list A) (f : A -> M unit) : M unit :=
  match l with
  | [] => ret tt
  | a :: l' => f a ;; forEach l' f
  end.

(** The last element of an array and the rest, for [pop]. *)
Fixpoint unsnoc {A : Type} (l : list A) : option (list A * A) :=
  match l with
  | [] => None
  | a :: l' =>
      match unsnoc l' with
      | None => Some ([], a)
      | Some (front, z) => Some (a :: front, z)
      end
  end.

End Host.

(** ** The controller: the methods of [Cursory] *)

Section Controller.

Context {num : Type} {JSN : JSNumber num}.

#[local] Abbreviation M := (M num).

(** The event object of a [mousemove]. *)
Record MouseEvent : Type := mkMouseEvent {
  clientX : num;
  clientY : num
}.

(** The body of the two marker-creating loops (lines 40-51 and 117-128):
    a [div] styled from the configuration, placed at the pointer, appended
    to the page and pushed on [trails]. *)
Definition newTrail : M unit :=
  c <- get_this ;;
  n <- createElement ;;
  let trail :=
    mkElement n ["cursory-trail"%string]
      (mkStyle (cursorSize (config c)) (cursorSize (config c))
         (trailColor (config c)) (opacity (config c))
         "fixed"%string "none"%string "50%"%string
         (mouseX c, mouseY c)) in
  appendChild n ;;
  update_this (fun c =>
    set_trails (trails c ++ [mkTrail trail (mouseX c) (mouseY c)]) c).

(** [trackMouse(e)] (lines 66-69) *)
Definition trackMouse (e : MouseEvent) : M unit :=
  update_this (set_mouse (clientX e) (clientY e)).

(** One marker's step of the loop of [animate] (lines 77-86). *)
Definition ease (c : Cursory num) (trail : Trail num) : Trail num :=
  let dx := sub (mouseX c) (x trail) in
  let dy := sub (mouseY c) (y trail) in
  let x' := add (x trail) (mul dx (to_number (followSpeed (config c)))) in
  let y' := add (y trail) (mul dy (to_number (followSpeed (config c)))) in
  let el := element trail in
  let st := style el in
  mkTrail
    (mkElement (node el) (classList el)
       (mkStyle (style_width st) (style_height st)
          (style_backgroundColor st) (style_opacity st)
          (style_position st) (style_pointerEvents st)
          (style_borderRadius st) (x', y')))
    x' y'.

(** [animate()] (lines 74-91): the loop visits each marker once and touches
    only that marker, so it is a map over [trails]; then the next frame is
    asked for. *)
Definition animate : M unit :=
  update_this (fun c => set_trails (map (ease c) (trails c)) c) ;;
  f <- bindFunction ;;
  h <- requestAnimationFrame f ;;
  update_this (set_animationFrame (Some h)).

(** [init(config)] (lines 23-60) *)
Definition init (cfg : Config num) : M unit :=
  update_this (set_config (spread defaultOptions cfg)) ;;
  update_this (fun c => set_maxTrails (trailLength (config c)) c) ;;
  c <- get_this ;;
  times (iterations (maxTrails c)) newTrail ;;
  f <- bindFunction ;;
  addEventListener f ;;
  animate ;;
  update_this (set_isInitialized true).

(** The callback of the [forEach] of [updateConfig] (lines 104-109). *)
Definition restyle (cfg : Config num) (trail : Trail num) : Trail num :=
  let el := element trail in
  let st := style el in
  mkTrail
    (mkElement (node el) (classList el)
       (mkStyle (cursorSize cfg) (cursorSize cfg) (trailColor cfg)
          (opacity cfg) (style_position st) (style_pointerEvents st)
          (style_borderRadius st) (style_transform st)))
    (x trail) (y trail).

(** [this.trails.pop()]: [None] is the [undefined] an empty array gives. *)
Definition pop : M (option (Trail num)) :=
  c <- get_this ;;
  match unsnoc (trails c) with
  | None => ret None
  | Some (front, last) =>
      update_this (set_trails front) ;; ret (Some last)
  end.

(** The body of the removing loop (lines 134-135); [trail.element] on
    [undefined] is a TypeError. *)
Definition removeLast : M unit :=
  trail <- pop ;;
  match trail with
  | None => throw TypeError
  | Some trail => removeChild (node (element trail))
  end.

(** JavaScript's reading of the tests and differences of [updateConfig],
    for a number [k] against a property that may be [undefined]. *)
Definition truthy (k : Z) : bool := negb (k =? 0)%Z.

Definition strict_neq (k : Z) (m : option Z) : bool :=
  match m with
  | Some m => negb (k =? m)%Z
  | None => true
  end.

Definition greater (k : Z) (m : option Z) : bool :=
  match m with
  | Some m => (m <? k)%Z
  | None => false
  end.

Definition difference (a b : option Z) : option Z :=
  match a, b with
  | Some a, Some b => Some (a - b)%Z
  | _, _ => None
  end.

(** [updateConfig(newConfig)] (lines 97-140) *)
Definition updateConfig (newConfig : Config num) : M unit :=
  c <- get_this ;;
  if negb (isInitialized c) then ret tt else
  update_this (fun c => set_config (spread (config c) newConfig) c) ;;
  update_this (fun c => set_trails (map (restyle (config c)) (trails c)) c) ;;
  c <- get_this ;;
  match trailLength newConfig with
  | Some k =>
      if truthy k && strict_neq k (maxTrails c) then
        (if greater k (maxTrails c)
         then times (iterations (difference (Some k) (maxTrails c))) newTrail
         else times (iterations (difference (maxTrails c) (Some k))) removeLast) ;;
        update_this (fun c => set_maxTrails (trailLength (config c)) c)
      else ret tt
  | None => ret tt
  end.

(** [destroy()] (lines 145-161) *)
Definition destroy : M unit :=
  c <- get_this ;;
  if negb (isInitialized c) then ret tt else
  forEach (trails c) (fun trail => removeChild (node (element trail))) ;;
  update_this (set_trails []) ;;
  f <- bindFunction ;;
  removeEventListener f ;;
  c <- get_this ;;
  cancelAnimationFrame (animationFrame c) ;;
  update_this (set_animationFrame None) ;;
  update_this (set_isInitialized false).

(** [initializeCursory(options = {})] (lines 171-173) *)
Definition initializeCursory (options : option (Config num)) : M unit :=
  init (match options with
        | Some o => o
        | None => empty_config
        end).

(** ** The page at work *)

(** The browser delivers a [mousemove]: every registered listener runs. *)
Definition dispatchMouseMove (e : MouseEvent) : M unit :=
  b <- get_window ;;
  forEach (mousemoveListeners b) (fun _ => trackMouse e).

(** The browser renders a frame: the callbacks requested so far run, and
    what they request waits for the next frame. *)
Definition runFrame : M unit :=
  pending <- takeFrameCallbacks ;;
  forEach pending (fun _ => animate).

(** What can happen to the controller: a call of one of its methods by the
    page's script, or an event of the browser. *)
Inductive Op : Type :=
| Init (cfg : Config num)
| TrackMouse (e : MouseEvent)
| Animate
| UpdateConfig (cfg : Config num)
| Destroy
| MouseMove (e : MouseEvent)
| Frame.

Definition step (o : Op) : M unit :=
  match o with
  | Init cfg => init cfg
  | TrackMouse e => trackMouse e
  | Animate => animate
  | UpdateConfig cfg => updateConfig cfg
  | Destroy => destroy
  | MouseMove e => dispatchMouseMove e
  | Frame => runFrame
  end.

(** Each call or event is a task of its own: an exception ends the task it
    was thrown in, and the next one starts from the state left behind. *)
Fixpoint run (ops : list Op) (w : World num) : World num :=
  match ops with
  | [] => w
  | o :: rest => run rest (world_of (step o w))
  end.

End Controller.

Arguments MouseEvent num : clear implicits.
Arguments Op num : clear implicits.


(** * Vocabulary of the properties *)

Section Vocabulary.

Context {num : Type} {JSN : JSNumber num}.

(** The page nodes of the markers, in array order. *)
Definition nodes (l : list (Trail num)) : list nat :=
  map (fun t => node (element t)) l.

(** Every marker owns a [div] of its own, made by [createElement] and
    still a child of [document.body]. *)
Definition attached (w : World num) : Prop :=
  NoDup (nodes (trails (this w))) /\
  Forall (fun n => n < nextNode (window w) /\ In n (body (window w)))
    (nodes (trails (this w))).

(** The state the controller keeps between calls: [maxTrails] counts the
    markers while it is initialized, and there are none while it is not. *)
Definition coherent (w : World num) : Prop :=
  attached w /\
  (isInitialized (this w) = true ->
   maxTrails (this w) = Some (Z.of_nat (length (trails (this w))))) /\
  (isInitialized (this w) = false -> trails (this w) = []).

(** A configuration whose marker count, when given, is a non-negative
    integer. *)
Definition length_ok (cfg : Config num) : Prop :=
  match trailLength cfg with
  | Some k => (0 <= k)%Z
  | None => True
  end.

(** A call the page may make in state [w]: [init] only on a controller that
    is not initialized, and marker counts that are not negative. *)
Definition op_ok (w : World num) (o : Op num) : Prop :=
  match o with
  | Init cfg => isInitialized (this w) = false /\ length_ok cfg
  | UpdateConfig cfg => length_ok cfg
  | TrackMouse _ | Animate | Destroy | MouseMove _ | Frame => True
  end.

Fixpoint admissible (ops : list (Op num)) (w : World num) : Prop :=
  match ops with
  | [] => True
  | o :: rest => op_ok w o /\ admissible rest (world_of (step o w))
  end.

(** Two states of the browser with the same listeners, the same pending
    frame requests and the same counters for functions and handles. *)
Definition same_callbacks (b b' : Browser) : Prop :=
  mousemoveListeners b' = mousemoveListeners b /\
  nextFunction b' = nextFunction b /\
  frameCallbacks b' = frameCallbacks b /\
  nextHandle b' = nextHandle b.

(** Every registered [mousemove] listener is a function object that was
    made earlier, and an initialized controller has one registered. *)
Definition registered (w : World num) : Prop :=
  Forall (fun f => f < nextFunction (window w)) (mousemoveListeners (window w)) /\
  (isInitialized (this w) = true -> mousemoveListeners (window w) <> []).

(** ** Forgetting [trailSpeed] *)

Definition forget_config (cfg : Config num) : Config num :=
  mkConfig (trailColor cfg) (trailLength cfg) None (cursorSize cfg)
    (opacity cfg) (followSpeed cfg).

Definition forget_world (w : World num) : World num :=
  mkWorld (set_config (forget_config (config (this w))) (this w)) (window w).

Definition forget_op (o : Op num) : Op num :=
  match o with
  | Init cfg => Init (forget_config cfg)
  | UpdateConfig cfg => UpdateConfig (forget_config cfg)
  | TrackMouse e => TrackMouse e
  | Animate => Animate
  | Destroy => Destroy
  | MouseMove e => MouseMove e
  | Frame => Frame
  end.

Definition forget_outcome {A : Type} (o : Outcome num A) : Outcome num A :=
  match o with
  | Normal a w => Normal a (forget_world w)
  | Thrown e w => Thrown e (forget_world w)
  end.

(** Two states that differ at most in the [trailSpeed] of the stored
    configuration. *)
Definition alike (w1 w2 : World num) : Prop := forget_world w1 = forget_world w2.

(** Two calls that take alike states to alike states, with the same result
    or the same exception. *)
Definition simulates {A : Type} (m1 m2 : M num A) : Prop :=
  forall w1 w2, alike w1 w2 -> forget_outcome (m1 w1) = forget_outcome (m2 w2).

End Vocabulary.

(** ** Distance to the pointer, in exact arithmetic *)



(** ** Inputs of the examples *)

(** [{ trailLength: k }] *)
Definition only_trailLength (k : Z) : Config float :=
  mkConfig None (Some k) None None None None.

(** [{ trailLength: 1, followSpeed: 0 }] *)
Definition stalled_config : Config float :=
  mkConfig None (Some 1%Z) None None None (Some 0%float).


(** * Vocabulary of the further properties *)

Section Triples.

Context {num : Type} {JSN : JSNumber num}.

(** A call [m] started in a state of [P] returns a value [a] in a state of
    [Q a], or throws [e] in a state of [E e]. *)
Definition triple {A : Type} (P : World num -> Prop) (m : M num A)
    (Q : A -> World num -> Prop) (E : Exn -> World num -> Prop) : Prop :=
  forall w, P w ->
    match m w with
    | Normal a w' => Q a w'
    | Thrown e w' => E e w'
    end.

(** [m] keeps [P], however it ends. *)
Definition keeps {A : Type} (P : World num -> Prop) (m : M num A) : Prop :=
  triple P m (fun _ => P) (fun _ => P).

(** The children of [document.body] are the markers' [div]s, in the order
    of the array, each made by [createElement], none twice. *)
Definition synced (w : World num) : Prop :=
  body (window w) = nodes (trails (this w)) /\
  NoDup (body (window w)) /\
  Forall (fun n => n < nextNode (window w)) (body (window w)).

(** ... a controller that is not initialized has no marker, and
    [maxTrails] is a number. *)
Definition tidy (w : World num) : Prop :=
  synced w /\
  (isInitialized (this w) = false -> trails (this w) = []) /\
  (exists m, maxTrails (this w) = Some m).

(** The window's [mousemove] listeners are [l], all of them function
    objects made before now. *)
Definition listening (l : list nat) (w : World num) : Prop :=
  mousemoveListeners (window w) = l /\
  Forall (fun f => f < nextFunction (window w)) l.

Definition is_Init (o : Op num) : bool :=
  match o with
  | Init _ => true
  | _ => false
  end.

End Triples.

Section Reconfigure.

Context {num : Type} {JSN : JSNumber num}.

(** The state of [init] when its loop starts (after lines 33 and 36). *)
Definition init_start (cfg : Config num) (w : World num) : World num :=
  mkWorld
    (set_maxTrails (trailLength (spread defaultOptions cfg))
       (set_config (spread defaultOptions cfg) (this w)))
    (window w).

(** What [init] does after its loop (lines 55-59). *)
Definition init_finish : M num unit :=
  f <- bindFunction ;;
  addEventListener f ;;
  animate ;;
  update_this (set_isInitialized true).

(** The state after the merge and the restyling of [updateConfig] (lines
    101-109), before the marker count is looked at. *)
Definition restyled (newConfig : Config num) (w : World num) : World num :=
  mkWorld
    (set_trails
       (map (restyle (spread (config (this w)) newConfig)) (trails (this w)))
       (set_config (spread (config (this w)) newConfig) (this w)))
    (window w).

(** The resizing of [updateConfig] (lines 112-139) for a marker count [k]
    that is given, not zero, and not [maxTrails]. *)
Definition resize (k : Z) (bound : option Z) : M num unit :=
  (if greater k bound
   then times (iterations (difference (Some k) bound)) newTrail
   else times (iterations (difference bound (Some k))) removeLast) ;;
  update_this (fun c => set_maxTrails (trailLength (config c)) c).

End Reconfigure.

Section Pages.

Context {num : Type} {JSN : JSNumber num}.

(** Every call of [ops], made in turn from [w], is one that [ok] allows in
    the state it is made in. *)
Fixpoint along (ok : World num -> Op num -> Prop) (ops : list (Op num))
    (w : World num) : Prop :=
  match ops with
  | [] => True
  | o :: rest => ok w o /\ along ok rest (world_of (step o w))
  end.

(** [init] is only called on a controller that is not initialized. *)
Definition orderly (w : World num) (o : Op num) : Prop :=
  match o with
  | Init _ => isInitialized (this w) = false
  | _ => True
  end.

(** ... and the page leaves [animate] to [init] and to the browser's
    frames: it does not call it itself. *)
Definition scripted (w : World num) (o : Op num) : Prop :=
  match o with
  | Init _ => isInitialized (this w) = false
  | Animate => False
  | _ => True
  end.

(** The marker's [div] looks as the configuration [cfg] and the marker's
    position say: class, size, colour, opacity, the three fixed
    properties, and the translation to [(x, y)]. *)
Definition dressed (cfg : Config num) (t : Trail num) : Prop :=
  classList (element t) = ["cursory-trail"%string] /\
  style (element t) =
    mkStyle (cursorSize cfg) (cursorSize cfg) (trailColor cfg) (opacity cfg)
      "fixed"%string "none"%string "50%"%string (x t, y t).

(** One frame request is pending and [animationFrame] holds its handle
    while the controller is initialized; none is pending and
    [animationFrame] is [null] while it is not. *)
Definition looping (w : World num) : Prop :=
  (isInitialized (this w) = true /\
   exists h f,
     animationFrame (this w) = Some h /\
     frameCallbacks (window w) = [(h, f)]) \/
  (isInitialized (this w) = false /\
   animationFrame (this w) = None /\
   frameCallbacks (window w) = []).

End Pages.
(** * Properties *)

Section Properties.

Context {num : Type} {JSN : JSNumber num}.

#[local] Abbreviation World := (World num).
#[local] Abbreviation Trail := (Trail num).

(** ** What each method leaves behind *)

Lemma trackMouse_eq (e : MouseEvent num) (w : World) :
  trackMouse e w =
  Normal tt (mkWorld (set_mouse (clientX e) (clientY e) (this w)) (window w)).
Proof. reflexivity. Qed.

Lemma animate_eq (w : World) :
  animate w =
  Normal tt
    (mkWorld
       (set_animationFrame (Some (nextHandle (window w)))
          (set_trails (map (ease (this w)) (trails (this w))) (this w)))
       (mkBrowser (body (window w)) (nextNode (window w))
          (mousemoveListeners (window w)) (S (nextFunction (window w)))
          (frameCallbacks (window w)
             ++ [(nextHandle (window w), nextFunction (window w))])
          (S (nextHandle (window w))))).
Proof. reflexivity. Qed.

Lemma newTrail_eq (w : World) :
  newTrail w =
  let c := this w in
  let b := window w in
  Normal tt
    (mkWorld
       (set_trails
          (trails c ++
           [mkTrail
              (mkElement (nextNode b) ["cursory-trail"%string]
                 (mkStyle (cursorSize (config c)) (cursorSize (config c))
                    (trailColor (config c)) (opacity (config c))
                    "fixed"%string "none"%string "50%"%string
                    (mouseX c, mouseY c)))
              (mouseX c) (mouseY c)]) c)
       (mkBrowser (without (nextNode b) (body b) ++ [nextNode b])
          (S (nextNode b)) (mousemoveListeners b) (nextFunction b)
          (frameCallbacks b) (nextHandle b))).
Proof. reflexivity. Qed.

Lemma updateConfig_guard (newConfig : Config num) (w : World) :
  isInitialized (this w) = false -> updateConfig newConfig w = Normal tt w.
Proof.
  intros Hoff. unfold updateConfig, bind, get_this. rewrite Hoff. reflexivity.
Qed.

Lemma destroy_guard (w : World) :
  isInitialized (this w) = false -> destroy w = Normal tt w.
Proof.
  intros Hoff. unfold destroy, bind, get_this. rewrite Hoff. reflexivity.
Qed.

Lemma Forall2_map_self {A B : Type} (f : A -> B) (P : A -> B -> Prop) (l : list A) :
  (forall a, P a (f a)) -> Forall2 P l (map f l).
Proof.
  intros Hf. induction l as [|a l IH]; simpl; constructor; auto.
Qed.

(** One call of [animate] returns, and puts every marker where the easing
    formula says, in the array and on the page. *)
Lemma animate_eases (w : World) :
  exists w',
    animate w = Normal tt w' /\
    Forall2
      (fun t t' =>
         x t' = add (x t) (mul (sub (mouseX (this w)) (x t))
                             (to_number (followSpeed (config (this w))))) /\
         y t' = add (y t) (mul (sub (mouseY (this w)) (y t))
                             (to_number (followSpeed (config (this w))))) /\
         style_transform (style (element t')) = (x t', y t') /\
         node (element t') = node (element t))
      (trails (this w)) (trails (this w')).
Proof.
  eexists. split; [apply animate_eq|].
  cbn [this trails set_animationFrame set_trails].
  apply Forall2_map_self. intros t. cbn. auto.
Qed.

(** C9. [trackMouse(e)] returns nothing and stores the event's coordinates
    in [mouseX] and [mouseY]; the configuration, the marker array with the
    markers' positions, [maxTrails], the frame handle, the initialized flag
    and the browser's state stay as they were. *)
Theorem trackMouse_overwrites_only_pointer (e : MouseEvent num) (w : World) :
  exists w',
    trackMouse e w = Normal tt w' /\
    mouseX (this w') = clientX e /\
    mouseY (this w') = clientY e /\
    config (this w') = config (this w) /\
    trails (this w') = trails (this w) /\
    maxTrails (this w') = maxTrails (this w) /\
    animationFrame (this w') = animationFrame (this w) /\
    isInitialized (this w') = isInitialized (this w) /\
    window w' = window w.
Proof.
  eexists. split; [apply trackMouse_eq|].
  cbn. repeat split; reflexivity.
Qed.

(** C8. On a controller that is not initialized, [updateConfig] returns
    without an exception and leaves the whole state as it was, whatever
    configuration it is given. *)
Theorem updateConfig_uninitialized_noop (newConfig : Config num) (w : World) :
  isInitialized (this w) = false ->
  updateConfig newConfig w = Normal tt w.
Proof. apply updateConfig_guard. Qed.


(** ** Lists and page membership *)

Lemma member_In (n : nat) (l : list nat) : member n l = true <-> In n l.
Proof.
  unfold member. rewrite existsb_exists. split.
  - intros [m [Hm He]]. apply Nat.eqb_eq in He. now subst.
  - intros Hn. exists n. split; [assumption | apply Nat.eqb_refl].
Qed.

Lemma In_without (m n : nat) (l : list nat) :
  In m (without n l) <-> In m l /\ m <> n.
Proof.
  unfold without. rewrite filter_In, negb_true_iff, Nat.eqb_neq. tauto.
Qed.

Lemma unsnoc_last {A : Type} (l : list A) (a : A) :
  unsnoc (l ++ [a]) = Some (l, a).
Proof.
  induction l as [|b l IH]; simpl; [reflexivity|]. now rewrite IH.
Qed.

Lemma nodes_app (l l' : list Trail) : nodes (l ++ l') = nodes l ++ nodes l'.
Proof. apply map_app. Qed.

Lemma nodes_ease (c : Cursory num) (l : list Trail) :
  nodes (map (ease c) l) = nodes l.
Proof. unfold nodes. rewrite map_map. reflexivity. Qed.

Lemma nodes_restyle (cfg : Config num) (l : list Trail) :
  nodes (map (restyle cfg) l) = nodes l.
Proof. unfold nodes. rewrite map_map. reflexivity. Qed.

Lemma set_trails_same (c : Cursory num) : set_trails (trails c) c = c.
Proof. destruct c. reflexivity. Qed.

(** ** Rules for the loops *)

(** A body that always returns and carries [Q i] to [Q (S i)] takes a loop
    of [n] rounds from [Q 0] to [Q n]. *)
Lemma times_rule (Q : nat -> World -> Prop) (m : M num unit) (n : nat) :
  (forall i w, i < n -> Q i w -> exists w', m w = Normal tt w' /\ Q (S i) w') ->
  forall w, Q 0 w -> exists w', times n m w = Normal tt w' /\ Q n w'.
Proof.
  intros Hstep.
  assert (Hgen : forall k j w, j + k = n -> Q j w ->
            exists w', times k m w = Normal tt w' /\ Q n w').
  { induction k as [|k IH]; intros j w Hj HQ.
    - rewrite Nat.add_0_r in Hj. subst j. exists w. split; [reflexivity | assumption].
    - destruct (Hstep j w) as [w1 [Hm HQ1]]; [lia | assumption |].
      destruct (IH (S j) w1) as [w2 [Ht HQ2]]; [lia | assumption |].
      exists w2. split; [|assumption].
      simpl. unfold bind. rewrite Hm. exact Ht. }
  intros w HQ. apply (Hgen n 0 w); [reflexivity | assumption].
Qed.

Lemma forEach_rule {A : Type} (Q : list A -> World -> Prop) (f : A -> M num unit) :
  (forall a l w, Q (a :: l) w -> exists w', f a w = Normal tt w' /\ Q l w') ->
  forall l w, Q l w -> exists w', forEach l f w = Normal tt w' /\ Q [] w'.
Proof.
  intros Hstep. induction l as [|a l IH]; intros w HQ.
  - exists w. split; [reflexivity | assumption].
  - destruct (Hstep a l w HQ) as [w1 [Hf HQ1]].
    destruct (IH w1 HQ1) as [w2 [Hl HQ2]].
    exists w2. split; [|assumption].
    simpl. unfold bind. rewrite Hf. exact Hl.
Qed.

(** ** Markers stay attached *)

Lemma attached_newTrail (w : World) :
  attached w -> attached (world_of (newTrail w)).
Proof.
  intros [Hnd Hall]. rewrite newTrail_eq. unfold attached.
  cbn [world_of this window trails set_trails nextNode body].
  rewrite nodes_app. cbn [nodes map element node].
  rewrite Forall_forall in Hall. split.
  - apply NoDup_app; [assumption | repeat constructor; intros [] | ].
    intros n Hn [Heq|[]]. subst n. apply Hall in Hn. lia.
  - apply Forall_app. split.
    + apply Forall_forall. intros n Hn. destruct (Hall n Hn) as [Hlt Hin]. split.
      * lia.
      * apply in_or_app. left. apply In_without. split; [assumption | lia].
    + repeat constructor. apply in_or_app. right. now left.
Qed.

(** Removing the last marker of an attached, non-empty array returns. *)
Lemma removeLast_attached (w : World) (front : list Trail) (last : Trail) :
  attached w ->
  trails (this w) = front ++ [last] ->
  exists w',
    removeLast w = Normal tt w' /\
    attached w' /\
    this w' = set_trails front (this w) /\
    same_callbacks (window w) (window w').
Proof.
  intros [Hnd Hall] Htr.
  rewrite Htr, nodes_app in Hnd, Hall. cbn in Hnd, Hall.
  apply Forall_app in Hall. destruct Hall as [Hfront Hlast].
  inversion Hlast as [|n0 l0 [Hlt Hin] _]; subst.
  destruct (NoDup_remove _ _ _ Hnd) as [Hnd' Hni].
  rewrite app_nil_r in Hnd', Hni.
  unfold removeLast, pop, bind, get_this. rewrite Htr, unsnoc_last.
  cbn [update_this ret].
  unfold removeChild, bind, get_window.
  cbn [window this element node body].
  apply member_In in Hin. rewrite Hin.
  eexists. split; [reflexivity|].
  split; [|split; [reflexivity | repeat split]].
  unfold attached. cbn [this window trails set_trails set_body body nextNode].
  split; [assumption|].
  rewrite Forall_forall in Hfront |- *. intros n Hn.
  destruct (Hfront n Hn) as [Hl Hi]. split; [assumption|].
  apply In_without. split; [assumption|]. intros ->. contradiction.
Qed.

Lemma same_callbacks_refl (b : Browser) : same_callbacks b b.
Proof. repeat split. Qed.

Lemma same_callbacks_trans (b1 b2 b3 : Browser) :
  same_callbacks b1 b2 -> same_callbacks b2 b3 -> same_callbacks b1 b3.
Proof.
  unfold same_callbacks. intros (-> & -> & -> & ->) (-> & -> & -> & ->).
  repeat split.
Qed.

(** The creating loop: [n] rounds push [n] markers, each at the pointer,
    and change nothing else of the controller. *)
Lemma times_newTrail (n : nat) (w : World) :
  exists w' created,
    times n newTrail w = Normal tt w' /\
    this w' = set_trails (trails (this w) ++ created) (this w) /\
    length created = n /\
    Forall (fun t => x t = mouseX (this w) /\ y t = mouseY (this w)) created /\
    (attached w -> attached w') /\
    same_callbacks (window w) (window w').
Proof.
  destruct (@times_rule
    (fun i w' => exists created,
       this w' = set_trails (trails (this w) ++ created) (this w) /\
       length created = i /\
       Forall (fun t => x t = mouseX (this w) /\ y t = mouseY (this w)) created /\
       (attached w -> attached w') /\
       same_callbacks (window w) (window w'))
    newTrail n) with (w := w) as [w' [Hrun [created Hq]]].
  - intros i w1 _ [created [Hthis [Hlen [Hpos [Hatt Hcb]]]]].
    eexists. split; [apply newTrail_eq|].
    cbv zeta. rewrite Hthis.
    cbn [this window trails config mouseX mouseY set_trails].
    eexists (created ++ [_]). split; [|split; [|split; [|split]]].
    + rewrite <- app_assoc. reflexivity.
    + rewrite length_app, Hlen. cbn. lia.
    + apply Forall_app. split; [assumption|]. repeat constructor.
    + intros Hw. specialize (Hatt Hw). apply attached_newTrail in Hatt.
      rewrite newTrail_eq in Hatt. cbv zeta in Hatt. rewrite Hthis in Hatt.
      exact Hatt.
    + exact Hcb.
  - exists []. rewrite app_nil_r, set_trails_same.
    split; [reflexivity|]. split; [reflexivity|]. split; [constructor|].
    split; [tauto|]. repeat split.
  - exists w', created. tauto.
Qed.

(** The removing loop: [n] rounds on an attached array of at least [n]
    markers pop the last [n], and change nothing else of the controller. *)
Lemma times_removeLast (n : nat) (w : World) :
  attached w ->
  n <= length (trails (this w)) ->
  exists w' rest removed,
    times n removeLast w = Normal tt w' /\
    trails (this w) = rest ++ removed /\
    length removed = n /\
    this w' = set_trails rest (this w) /\
    attached w' /\
    same_callbacks (window w) (window w').
Proof.
  intros Hatt Hn.
  destruct (@times_rule
    (fun i w' => exists rest removed,
       trails (this w) = rest ++ removed /\
       length removed = i /\
       this w' = set_trails rest (this w) /\
       attached w' /\
       same_callbacks (window w) (window w'))
    removeLast n) with (w := w) as [w' [Hrun [rest [removed Hq]]]].
  - intros i w1 Hi [rest [removed [Hsplit [Hlen [Hthis [Hatt1 Hcb1]]]]]].
    assert (Hne : rest <> []).
    { intros ->. rewrite Hsplit in Hn. cbn in Hn. lia. }
    destruct (exists_last Hne) as [front [last Hrest]].
    destruct (@removeLast_attached w1 front last Hatt1)
      as [w2 [Hrm [Hatt2 [Hthis2 Hcb2]]]].
    { rewrite Hthis. cbn. exact Hrest. }
    exists w2. split; [exact Hrm|].
    exists front, (last :: removed). split; [|split; [|split; [|split]]].
    + rewrite Hsplit, Hrest, <- app_assoc. reflexivity.
    + cbn. lia.
    + rewrite Hthis2, Hthis. reflexivity.
    + exact Hatt2.
    + exact (same_callbacks_trans Hcb1 Hcb2).
  - exists (trails (this w)), []. rewrite app_nil_r, set_trails_same.
    split; [reflexivity|]. split; [reflexivity|]. split; [reflexivity|].
    split; [assumption | apply same_callbacks_refl].
  - exists w', rest, removed. tauto.
Qed.

(** The loop of [destroy]: every marker of an attached array leaves the
    page, and the controller is not touched. *)
Lemma forEach_removeChild (w : World) :
  attached w ->
  exists w',
    forEach (trails (this w)) (fun trail => removeChild (node (element trail))) w
    = Normal tt w' /\
    this w' = this w /\
    nextNode (window w') = nextNode (window w) /\
    mousemoveListeners (window w') = mousemoveListeners (window w) /\
    nextFunction (window w') = nextFunction (window w) /\
    frameCallbacks (window w') = frameCallbacks (window w) /\
    nextHandle (window w') = nextHandle (window w) /\
    (forall n, In n (body (window w')) <->
               In n (body (window w)) /\ ~ In n (nodes (trails (this w)))).
Proof.
  intros [Hnd Hall].
  destruct (@forEach_rule Trail
    (fun rest w' =>
       this w' = this w /\
       nextNode (window w') = nextNode (window w) /\
       mousemoveListeners (window w') = mousemoveListeners (window w) /\
       nextFunction (window w') = nextFunction (window w) /\
       frameCallbacks (window w') = frameCallbacks (window w) /\
       nextHandle (window w') = nextHandle (window w) /\
       NoDup (nodes rest) /\
       Forall (fun n => In n (body (window w'))) (nodes rest) /\
       (forall n, In n (body (window w')) /\ ~ In n (nodes rest) <->
                  In n (body (window w)) /\ ~ In n (nodes (trails (this w)))))
    (fun trail => removeChild (node (element trail))))
    with (l := trails (this w)) (w := w) as [w' [Hrun Hq]].
  - intros a l w1 (Hthis & Hnn & Hml & Hnf & Hfc & Hnh & Hnd1 & Hin1 & Hbody).
    cbn [nodes map] in Hnd1, Hin1, Hbody.
    inversion Hnd1 as [|n0 l0 Hna Hnd2]; subst.
    inversion Hin1 as [|n0 l0 Ha Hin2]; subst.
    unfold removeChild, bind, get_window.
    apply member_In in Ha. rewrite Ha.
    eexists. split; [reflexivity|].
    cbn [this window set_body body nextNode mousemoveListeners nextFunction
         frameCallbacks nextHandle].
    repeat (split; [assumption|]). split.
    + rewrite Forall_forall in Hin2 |- *. intros n Hn.
      apply In_without. split; [auto|]. intros ->. contradiction.
    + intros n. rewrite <- Hbody, In_without. cbn [In].
      fold (nodes l). split.
      * intros [[Hb Hne] Hnl]. split; [assumption|]. intros [Heq|Hl]; auto.
      * intros [Hb Hnot]. repeat split; auto.
  - repeat (split; [reflexivity|]). split; [assumption|]. split.
    + apply Forall_forall. rewrite Forall_forall in Hall.
      intros n Hn. now apply Hall.
    + tauto.
  - destruct Hq as (Hthis & Hnn & Hml & Hnf & Hfc & Hnh & _ & _ & Hbody).
    exists w'. repeat (split; [assumption|]).
    intros n. rewrite <- Hbody. cbn [nodes map In]. tauto.
Qed.

(** ** [init] *)

Lemma ease_set_trails (c : Cursory num) (l l' : list Trail) :
  map (ease (set_trails l' c)) l = map (ease c) l.
Proof. apply map_ext. intros t. reflexivity. Qed.

Lemma init_spec (cfg : Config num) (w : World) :
  exists w' created,
    init cfg w = Normal tt w' /\
    length created = iterations (trailLength (spread defaultOptions cfg)) /\
    Forall (fun t => x t = mouseX (this w) /\ y t = mouseY (this w)) created /\
    this w' =
      mkCursory (spread defaultOptions cfg)
        (map (ease (set_config (spread defaultOptions cfg) (this w)))
           (trails (this w) ++ created))
        (trailLength (spread defaultOptions cfg))
        (Some (nextHandle (window w)))
        true (mouseX (this w)) (mouseY (this w)) /\
    (attached w -> attached w') /\
    mousemoveListeners (window w') =
      (if member (nextFunction (window w)) (mousemoveListeners (window w))
       then mousemoveListeners (window w)
       else mousemoveListeners (window w) ++ [nextFunction (window w)]) /\
    nextFunction (window w') = S (S (nextFunction (window w))).
Proof.
  set (cfg' := spread defaultOptions cfg).
  set (w1 := mkWorld (set_maxTrails (trailLength cfg') (set_config cfg' (this w)))
               (window w)).
  destruct (times_newTrail (iterations (trailLength cfg')) w1)
    as [w2 [created [Hrun [Hthis [Hlen [Hpos [Hatt Hcb]]]]]]].
  assert (Hinit : init cfg w =
    Normal tt (world_of (update_this (set_isInitialized true)
      (world_of (animate
        (world_of (addEventListener (nextFunction (window w2))
          (world_of (bindFunction w2))))))))).
  { unfold init, bind, update_this, get_this.
    cbn [this window config maxTrails set_maxTrails set_config].
    fold cfg'. fold w1. rewrite Hrun. reflexivity. }
  destruct Hcb as (Hml & Hnf & _ & Hnh).
  eexists. exists created. split; [exact Hinit|].
  split; [exact Hlen|]. split; [exact Hpos|].
  rewrite animate_eq. cbn. rewrite Hnh, Hthis, Hml, Hnf.
  split; [|split; [|split; reflexivity]].
  - unfold set_isInitialized, set_animationFrame, set_trails. cbn.
    reflexivity.
  - intros Hw.
    assert (Hw1 : attached w1) by exact Hw.
    specialize (Hatt Hw1). destruct Hatt as [Hnd Hall].
    rewrite Hthis in Hnd, Hall.
    unfold attached.
    cbn [this window trails set_trails set_isInitialized set_animationFrame
         body nextNode] in Hnd, Hall |- *.
    rewrite nodes_ease. split; assumption.
Qed.

(** ** [updateConfig] *)

Lemma attached_same (w w' : World) :
  nodes (trails (this w')) = nodes (trails (this w)) ->
  body (window w') = body (window w) ->
  nextNode (window w') = nextNode (window w) ->
  attached w -> attached w'.
Proof.
  unfold attached. intros -> -> ->. exact (fun H => H).
Qed.

Lemma length_nodes (l : list Trail) : length (nodes l) = length l.
Proof. apply length_map. Qed.

(** On an initialized controller in a coherent state, [updateConfig] with a
    marker count that is not negative returns; the state stays coherent, a
    positive count [k] leaves exactly [k] markers, and a count that is
    absent or zero leaves the markers there were. *)
Lemma updateConfig_spec (newConfig : Config num) (w : World) :
  coherent w ->
  isInitialized (this w) = true ->
  length_ok newConfig ->
  exists w',
    updateConfig newConfig w = Normal tt w' /\
    coherent w' /\
    isInitialized (this w') = true /\
    config (this w') = spread (config (this w)) newConfig /\
    length (trails (this w')) =
      match trailLength newConfig with
      | Some k => if (k =? 0)%Z then length (trails (this w)) else Z.to_nat k
      | None => length (trails (this w))
      end /\
    same_callbacks (window w) (window w').
Proof.
  intros (Hatt & Hmax & Hoff) Hon Hok.
  specialize (Hmax Hon).
  remember (spread (config (this w)) newConfig) as cfg' eqn:Hcfg'.
  assert (Hcfgk : forall k, trailLength newConfig = Some k ->
                            trailLength cfg' = Some k).
  { intros k Hk. rewrite Hcfg'. cbn. rewrite Hk. reflexivity. }
  set (w1 := mkWorld
               (set_trails (map (restyle cfg') (trails (this w)))
                  (set_config cfg' (this w)))
               (window w)).
  assert (Hatt1 : attached w1).
  { apply attached_same with (w := w); try reflexivity; [|assumption].
    cbn. apply nodes_restyle. }
  assert (Hlen1 : length (trails (this w1)) = length (trails (this w))).
  { cbn. apply length_map. }
  assert (Hsame : forall n, length (trails (this w)) = n ->
    coherent w1 /\ isInitialized (this w1) = true /\ config (this w1) = cfg' /\
    length (trails (this w1)) = n /\ same_callbacks (window w) (window w1)).
  { intros n Hn. split; [|split; [assumption|split; [reflexivity|split]]].
    - split; [assumption|]. split.
      + intros _. cbn. rewrite length_map. exact Hmax.
      + cbn. rewrite Hon. discriminate.
    - rewrite Hlen1. exact Hn.
    - apply same_callbacks_refl. }
  unfold updateConfig, bind, get_this. rewrite Hon.
  cbn [negb update_this this window config trails maxTrails set_config
       set_trails].
  rewrite <- Hcfg'. fold w1. rewrite Hmax.
  unfold length_ok in Hok.
  destruct (trailLength newConfig) as [k|] eqn:Hk.
  2:{ exists w1. split; [reflexivity|]. now apply Hsame. }
  unfold truthy, strict_neq, greater, difference.
  destruct (Z.eqb_spec k 0) as [Hz|Hnz]; cbn [negb andb].
  { exists w1. split; [reflexivity|]. now apply Hsame. }
  specialize (Hcfgk k eq_refl).
  destruct (Z.eqb_spec k (Z.of_nat (length (trails (this w))))) as [Heq|Hneq];
    cbn [negb].
  { exists w1. split; [reflexivity|]. apply Hsame. rewrite Heq, Nat2Z.id.
    reflexivity. }
  destruct (Z.ltb_spec (Z.of_nat (length (trails (this w)))) k) as [Hlt|Hge];
    cbn [iterations].
  - destruct (times_newTrail
                (Z.to_nat (k - Z.of_nat (length (trails (this w))))) w1)
      as [w2 [created [Hrun [Hthis [Hlen [_ [Hatt2 Hcb]]]]]]].
    rewrite Hrun. eexists. split; [reflexivity|].
    cbn [this window]. rewrite Hthis.
    assert (Hcount : length (trails (this w1) ++ created) = Z.to_nat k).
    { rewrite length_app, Hlen, Hlen1. lia. }
    split; [|split; [assumption|split; [reflexivity|split; [exact Hcount|exact Hcb]]]].
    split; [|split].
    + specialize (Hatt2 Hatt1). revert Hatt2. apply attached_same.
      * rewrite Hthis. reflexivity.
      * reflexivity.
      * reflexivity.
    + intros _. cbn. rewrite Hcfgk.
      cbn in Hcount. rewrite Hcount. f_equal. lia.
    + cbn. rewrite Hon. discriminate.
  - destruct (@times_removeLast
                (Z.to_nat (Z.of_nat (length (trails (this w))) - k)) w1 Hatt1)
      as [w2 [rest [removed [Hrun [Hsplit [Hlen [Hthis [Hatt2 Hcb]]]]]]]].
    { rewrite Hlen1. lia. }
    rewrite Hrun. eexists. split; [reflexivity|].
    cbn [this window]. rewrite Hthis.
    assert (Hcount : length rest = Z.to_nat k).
    { apply (f_equal (@length Trail)) in Hsplit.
      rewrite length_app, Hlen, Hlen1 in Hsplit. lia. }
    split; [|split; [assumption|split; [reflexivity|split; [exact Hcount|exact Hcb]]]].
    split; [|split].
    + revert Hatt2. apply attached_same.
      * rewrite Hthis. reflexivity.
      * reflexivity.
      * reflexivity.
    + intros _. cbn. rewrite Hcfgk, Hcount. f_equal. lia.
    + cbn. rewrite Hon. discriminate.
Qed.

(** ** [destroy] *)

(** What [destroy] does once its loop has returned. *)
Lemma destroy_eq (w w1 : World) :
  isInitialized (this w) = true ->
  forEach (trails (this w)) (fun trail => removeChild (node (element trail))) w
  = Normal tt w1 ->
  destroy w =
  Normal tt
    (mkWorld
       (mkCursory (config (this w1)) [] (maxTrails (this w1)) None false
          (mouseX (this w1)) (mouseY (this w1)))
       (mkBrowser (body (window w1)) (nextNode (window w1))
          (without (nextFunction (window w1)) (mousemoveListeners (window w1)))
          (S (nextFunction (window w1)))
          (match animationFrame (this w1) with
           | Some h =>
               filter (fun r => negb (Nat.eqb (fst r) h))
                 (frameCallbacks (window w1))
           | None => frameCallbacks (window w1)
           end)
          (nextHandle (window w1)))).
Proof.
  intros Hon Hloop. unfold destroy, bind, get_this. rewrite Hon.
  cbn [negb]. rewrite Hloop. cbn.
  destruct (animationFrame (this w1)); reflexivity.
Qed.

Lemma destroy_spec (w : World) :
  attached w ->
  isInitialized (this w) = true ->
  exists w',
    destroy w = Normal tt w' /\
    this w' =
      mkCursory (config (this w)) [] (maxTrails (this w)) None false
        (mouseX (this w)) (mouseY (this w)) /\
    mousemoveListeners (window w') =
      without (nextFunction (window w)) (mousemoveListeners (window w)) /\
    nextFunction (window w') = S (nextFunction (window w)) /\
    (forall n, In n (body (window w')) <->
               In n (body (window w)) /\ ~ In n (nodes (trails (this w)))).
Proof.
  intros Hatt Hon.
  destruct (forEach_removeChild Hatt)
    as (w1 & Hloop & Hthis & _ & Hml & Hnf & _ & _ & Hbody).
  eexists. split; [apply (destroy_eq _ Hon Hloop)|].
  cbn. rewrite Hthis, Hml, Hnf.
  split; [reflexivity|]. split; [reflexivity|]. split; [reflexivity|].
  exact Hbody.
Qed.

Lemma removeChild_eq (n : nat) (w : World) :
  removeChild n w =
  if member n (body (window w))
  then Normal tt (mkWorld (this w) (set_body (without n (body (window w))) (window w)))
  else Thrown NotFoundError w.
Proof.
  unfold removeChild, bind, get_window. destruct (member n _); reflexivity.
Qed.

Lemma forEach_cons {A : Type} (a : A) (l : list A) (f : A -> M num unit) (w : World) :
  forEach (a :: l) f w =
  match f a w with
  | Normal _ w' => forEach l f w'
  | Thrown e w' => Thrown e w'
  end.
Proof. reflexivity. Qed.

(** The loop of [destroy] never touches the controller and only ever takes
    nodes off the page, however it ends. *)
Lemma forEach_removeChild_shrinks (l : list Trail) (w : World) :
  this (world_of (forEach l (fun trail => removeChild (node (element trail))) w))
  = this w /\
  (forall n,
     In n (body (window (world_of
       (forEach l (fun trail => removeChild (node (element trail))) w)))) ->
     In n (body (window w))).
Proof.
  revert w. induction l as [|t l IH]; intros w.
  - cbn. auto.
  - rewrite forEach_cons, removeChild_eq.
    destruct (member (node (element t)) (body (window w))).
    + destruct (IH (mkWorld (this w)
                      (set_body (without (node (element t)) (body (window w)))
                         (window w)))) as [Ht Hb].
      split; [exact Ht|].
      intros n Hn. apply Hb in Hn. cbn in Hn. apply In_without in Hn. tauto.
    + cbn. auto.
Qed.

(** When that loop throws, it is because a marker's node was not on the
    page, and then the first marker's node is not on the page afterwards. *)
Lemma forEach_removeChild_thrown (l : list Trail) (w w1 : World) (e : Exn) :
  forEach l (fun trail => removeChild (node (element trail))) w = Thrown e w1 ->
  e = NotFoundError /\
  this w1 = this w /\
  exists t l', l = t :: l' /\ ~ In (node (element t)) (body (window w1)).
Proof.
  intros Hthrown.
  assert (He : e = NotFoundError).
  { revert w Hthrown. induction l as [|t l IH]; intros w; [discriminate|].
    rewrite forEach_cons, removeChild_eq.
    destruct (member (node (element t)) (body (window w))).
    - apply IH.
    - intros Heq. injection Heq as <- _. reflexivity. }
  split; [exact He|].
  pose proof (forEach_removeChild_shrinks l w) as [Ht Hb].
  rewrite Hthrown in Ht, Hb. cbn in Ht, Hb.
  split; [exact Ht|].
  destruct l as [|t l]; [discriminate|].
  exists t, l. split; [reflexivity|].
  rewrite forEach_cons, removeChild_eq in Hthrown.
  destruct (member (node (element t)) (body (window w))) eqn:Hm.
  - pose proof (forEach_removeChild_shrinks l
                  (mkWorld (this w)
                     (set_body (without (node (element t)) (body (window w)))
                        (window w)))) as [_ Hb'].
    rewrite Hthrown in Hb'. cbn in Hb'.
    intros Hin. apply Hb' in Hin. apply In_without in Hin. tauto.
  - injection Hthrown as _ <-. intros Hin. apply member_In in Hin. congruence.
Qed.

(** ** Coherence is kept by every admissible call *)

Lemma coherent_same (w w' : World) :
  nodes (trails (this w')) = nodes (trails (this w)) ->
  body (window w') = body (window w) ->
  nextNode (window w') = nextNode (window w) ->
  isInitialized (this w') = isInitialized (this w) ->
  maxTrails (this w') = maxTrails (this w) ->
  coherent w -> coherent w'.
Proof.
  intros Hn Hb Hnn Hi Hm (Hatt & Hmax & Hoff).
  assert (Hlen : length (trails (this w')) = length (trails (this w))).
  { rewrite <- !length_nodes, Hn. reflexivity. }
  split; [|split].
  - revert Hatt. apply attached_same; assumption.
  - rewrite Hi, Hm, Hlen. exact Hmax.
  - rewrite Hi. intros Hf. specialize (Hoff Hf).
    rewrite Hoff in Hlen. cbn in Hlen.
    now apply length_zero_iff_nil.
Qed.

Lemma coherent_World0 : coherent World0.
Proof.
  split; [|split].
  - split; cbn; constructor.
  - cbn. discriminate.
  - reflexivity.
Qed.

Lemma trailLength_defaulted (cfg : Config num) :
  trailLength (spread defaultOptions cfg) =
  Some match trailLength cfg with
       | Some k => k
       | None => 10%Z
       end.
Proof. cbn. destruct (trailLength cfg); reflexivity. Qed.

Lemma coherent_trackMouse (e : MouseEvent num) (w : World) :
  coherent w -> coherent (world_of (trackMouse e w)).
Proof. apply coherent_same; reflexivity. Qed.

Lemma coherent_animate (w : World) :
  coherent w -> coherent (world_of (animate w)).
Proof.
  rewrite animate_eq. apply coherent_same; try reflexivity.
  cbn. apply nodes_ease.
Qed.

Lemma coherent_init (cfg : Config num) (w : World) :
  coherent w ->
  isInitialized (this w) = false ->
  length_ok cfg ->
  exists w', init cfg w = Normal tt w' /\ coherent w'.
Proof.
  intros (Hatt & _ & Hoff) Hf Hok. specialize (Hoff Hf).
  destruct (init_spec cfg w) as (w' & created & Hrun & Hlen & _ & Hthis & Hatt' & _).
  exists w'. split; [exact Hrun|].
  split; [auto|]. rewrite Hthis. cbn [isInitialized maxTrails trails].
  split; [|discriminate]. intros _.
  rewrite Hoff, length_map. cbn [app].
  rewrite Hlen, trailLength_defaulted. cbn [iterations]. f_equal.
  unfold length_ok in Hok. destruct (trailLength cfg); lia.
Qed.

Lemma coherent_updateConfig (cfg : Config num) (w : World) :
  coherent w ->
  length_ok cfg ->
  exists w', updateConfig cfg w = Normal tt w' /\ coherent w'.
Proof.
  intros Hc Hok. destruct (isInitialized (this w)) eqn:Hon.
  - destruct (updateConfig_spec cfg Hc Hon Hok) as (w' & Hrun & Hc' & _).
    exists w'. auto.
  - exists w. split; [now apply updateConfig_guard | assumption].
Qed.

Lemma coherent_destroy (w : World) :
  coherent w ->
  exists w', destroy w = Normal tt w' /\ coherent w'.
Proof.
  intros Hc. destruct (isInitialized (this w)) eqn:Hon.
  - destruct Hc as (Hatt & _).
    destruct (destroy_spec Hatt Hon) as (w' & Hrun & Hthis & _).
    exists w'. split; [exact Hrun|]. unfold coherent, attached.
    rewrite Hthis. cbn. repeat split; try constructor. discriminate.
  - exists w. split; [now apply destroy_guard | assumption].
Qed.

Lemma coherent_dispatchMouseMove (e : MouseEvent num) (w : World) :
  coherent w ->
  exists w', dispatchMouseMove e w = Normal tt w' /\ coherent w'.
Proof.
  intros Hc. unfold dispatchMouseMove, bind, get_window.
  apply (@forEach_rule nat (fun _ w' => coherent w')); [|exact Hc].
  intros _ _ w1 Hc1. eexists. split; [apply trackMouse_eq|].
  now apply (coherent_trackMouse e) in Hc1.
Qed.

Lemma coherent_runFrame (w : World) :
  coherent w ->
  exists w', runFrame w = Normal tt w' /\ coherent w'.
Proof.
  intros Hc. unfold runFrame, bind, takeFrameCallbacks.
  apply (@forEach_rule (nat * nat) (fun _ w' => coherent w')).
  - intros _ _ w1 Hc1. eexists. split; [apply animate_eq|].
    apply coherent_animate in Hc1. rewrite animate_eq in Hc1. exact Hc1.
  - revert Hc. apply coherent_same; reflexivity.
Qed.

(** An admissible call from a coherent state returns without an exception,
    in a coherent state. *)
Lemma coherent_step (o : Op num) (w : World) :
  coherent w ->
  op_ok w o ->
  exists w', step o w = Normal tt w' /\ coherent w'.
Proof.
  intros Hc Hok. destruct o as [cfg|e| |cfg| |e| ]; cbn [step op_ok] in *.
  - destruct Hok as [Hoff Hlen]. now apply coherent_init.
  - eexists. split; [apply trackMouse_eq|]. now apply (coherent_trackMouse e) in Hc.
  - eexists. split; [apply animate_eq|].
    apply coherent_animate in Hc. rewrite animate_eq in Hc. exact Hc.
  - now apply coherent_updateConfig.
  - now apply coherent_destroy.
  - now apply coherent_dispatchMouseMove.
  - now apply coherent_runFrame.
Qed.

Lemma coherent_run (ops : list (Op num)) (w : World) :
  coherent w -> admissible ops w -> coherent (run ops w).
Proof.
  revert w. induction ops as [|o ops IH]; intros w Hc Hadm; cbn in *.
  - exact Hc.
  - destruct Hadm as [Hok Hrest].
    destruct (coherent_step o Hc Hok) as (w' & Hstep & Hc').
    rewrite Hstep in Hrest |- *. cbn in Hrest |- *. now apply IH.
Qed.

(** C10. Along every sequence of method calls and browser events that
    starts on the fresh page, calls [init] only while the controller is not
    initialized and only passes marker counts that are non-negative
    integers, a state in which the controller is initialized has as many
    markers as [maxTrails] says. *)
Theorem initialized_trails_length_is_maxTrails (ops : list (Op num)) :
  admissible ops World0 ->
  isInitialized (this (run ops World0)) = true ->
  maxTrails (this (run ops World0)) =
  Some (Z.of_nat (length (trails (this (run ops World0))))).
Proof.
  intros Hadm Hon.
  destruct (coherent_run ops coherent_World0 Hadm) as (_ & Hmax & _).
  exact (Hmax Hon).
Qed.

(** ** Calling [destroy] again *)

Lemma destroy_thrown (w w1 : World) (e : Exn) :
  isInitialized (this w) = true ->
  forEach (trails (this w)) (fun trail => removeChild (node (element trail))) w
  = Thrown e w1 ->
  destroy w = Thrown e w1.
Proof.
  intros Hon Hloop. unfold destroy, bind, get_this. rewrite Hon.
  cbn [negb]. rewrite Hloop. reflexivity.
Qed.

(** C7. In every state, a second call of [destroy] right after a first one
    changes nothing: when the first call returned, the second returns too
    and leaves the whole state (controller and browser) as the first left
    it; when the first call threw (a marker's node was not on the page),
    the second throws the same exception and again leaves the state as the
    first left it. *)
Theorem destroy_twice_is_destroy_once (w : World) :
  match destroy w with
  | Normal _ w1 => destroy w1 = Normal tt w1
  | Thrown e w1 => destroy w1 = Thrown e w1
  end.
Proof.
  destruct (isInitialized (this w)) eqn:Hon.
  - destruct (forEach (trails (this w))
                (fun trail => removeChild (node (element trail))) w)
      as [[] w1|e w1] eqn:Hloop.
    + rewrite (destroy_eq _ Hon Hloop). apply destroy_guard. reflexivity.
    + rewrite (destroy_thrown _ Hon Hloop).
      destruct (forEach_removeChild_thrown _ _ Hloop)
        as (-> & Hthis & t & l' & Htr & Hout).
      apply destroy_thrown.
      * rewrite Hthis. exact Hon.
      * rewrite Hthis, Htr, forEach_cons, removeChild_eq.
        destruct (member (node (element t)) (body (window w1))) eqn:Hm;
          [|reflexivity].
        apply member_In in Hm. contradiction.
  - rewrite (destroy_guard _ Hon). now apply destroy_guard.
Qed.

(** In a coherent state the first call returns, so both do. *)
Lemma destroy_returns (w : World) :
  coherent w ->
  exists w', destroy w = Normal tt w' /\ destroy w' = Normal tt w'.
Proof.
  intros Hc. destruct (isInitialized (this w)) eqn:Hon.
  - destruct Hc as (Hatt & _).
    destruct (destroy_spec Hatt Hon) as (w' & Hrun & Hthis & _).
    exists w'. split; [exact Hrun|]. apply destroy_guard.
    rewrite Hthis. reflexivity.
  - exists w. split; now apply destroy_guard.
Qed.

(** ** A marker count of zero *)

(** [updateConfig] with [trailLength: 0] never changes how many markers
    there are: [0] is falsy, so the resizing branch is not entered. *)
Lemma updateConfig_zero_length (newConfig : Config num) (w : World) :
  trailLength newConfig = Some 0%Z ->
  exists w',
    updateConfig newConfig w = Normal tt w' /\
    length (trails (this w')) = length (trails (this w)) /\
    maxTrails (this w') = maxTrails (this w).
Proof.
  intros Hk. unfold updateConfig, bind, get_this.
  destruct (isInitialized (this w)); cbn [negb].
  - cbn [update_this this window set_config set_trails config trails maxTrails].
    rewrite Hk. cbn [truthy Z.eqb negb andb ret].
    eexists. split; [reflexivity|]. cbn. split; [apply length_map | reflexivity].
  - exists w. auto.
Qed.

(** ** The [mousemove] listener outlives [destroy] *)

Lemma without_fresh (f : nat) (l : list nat) :
  Forall (fun g => g < f) l -> without f l = l.
Proof.
  intros Hl. unfold without. induction Hl as [|g l Hg Hl IH]; cbn.
  - reflexivity.
  - destruct (Nat.eqb_spec g f) as [->|Hne]; [lia|]. cbn. now rewrite IH.
Qed.

(** A [mousemove] with a listener registered stores the event's
    coordinates; with none registered it does nothing. *)
Lemma dispatchMouseMove_eq (e : MouseEvent num) (w : World) :
  dispatchMouseMove e w =
  Normal tt
    match mousemoveListeners (window w) with
    | [] => w
    | _ :: _ => mkWorld (set_mouse (clientX e) (clientY e) (this w)) (window w)
    end.
Proof.
  unfold dispatchMouseMove, bind, get_window.
  generalize (mousemoveListeners (window w)). intros l. revert w.
  induction l as [|f l IH]; intros w; [reflexivity|].
  rewrite forEach_cons, trackMouse_eq, IH. destruct l; reflexivity.
Qed.

Lemma registered_same (w w' : World) :
  mousemoveListeners (window w') = mousemoveListeners (window w) ->
  nextFunction (window w) <= nextFunction (window w') ->
  isInitialized (this w') = isInitialized (this w) ->
  registered w -> registered w'.
Proof.
  intros Hl Hn Hi [Hall Hne]. unfold registered. rewrite Hl, Hi.
  split; [|assumption]. revert Hall. apply Forall_impl. intros f Hf. lia.
Qed.

Lemma registered_World0 : registered World0.
Proof. split; cbn; [constructor | discriminate]. Qed.

Lemma registered_animate (w : World) :
  registered w -> registered (world_of (animate w)).
Proof.
  rewrite animate_eq. apply registered_same; cbn; auto.
Qed.

Lemma registered_step (o : Op num) (w : World) :
  coherent w ->
  registered w ->
  op_ok w o ->
  registered (world_of (step o w)).
Proof.
  intros Hc Hr Hok. destruct o as [cfg|e| |cfg| |e| ]; cbn [step op_ok] in *.
  - destruct (init_spec cfg w)
      as (w' & created & Hrun & _ & _ & Hthis & _ & Hml & Hnf).
    rewrite Hrun. cbn [world_of]. destruct Hr as [Hall _].
    unfold registered. rewrite Hml, Hnf, Hthis. cbn [isInitialized]. split.
    + destruct (member _ _).
      * revert Hall. apply Forall_impl. intros f Hf. lia.
      * apply Forall_app. split; [|repeat constructor].
        revert Hall. apply Forall_impl. intros f Hf. lia.
    + intros _. destruct (member _ _) eqn:Hm.
      * intros Hnil. rewrite Hnil in Hm. discriminate.
      * intros Hnil. apply app_eq_nil in Hnil. destruct Hnil; discriminate.
  - revert Hr. apply registered_same; reflexivity.
  - now apply registered_animate.
  - destruct (isInitialized (this w)) eqn:Hon.
    + destruct (updateConfig_spec cfg Hc Hon Hok)
        as (w' & Hrun & _ & Hon' & _ & _ & Hml & Hnf & _).
      rewrite Hrun. cbn [world_of]. revert Hr.
      apply registered_same; [assumption | lia | congruence].
    + rewrite (updateConfig_guard cfg _ Hon). exact Hr.
  - destruct (isInitialized (this w)) eqn:Hon.
    + destruct Hc as (Hatt & _).
      destruct (destroy_spec Hatt Hon) as (w' & Hrun & Hthis & Hml & Hnf & _).
      rewrite Hrun. cbn [world_of]. destruct Hr as [Hall _].
      unfold registered. rewrite Hml, Hnf, Hthis, (without_fresh Hall).
      cbn [isInitialized]. split; [|discriminate].
      revert Hall. apply Forall_impl. intros f Hf. lia.
    + rewrite (destroy_guard _ Hon). exact Hr.
  - rewrite dispatchMouseMove_eq. cbn [world_of].
    destruct (mousemoveListeners (window w)) eqn:Hl; [exact Hr|].
    revert Hr. apply registered_same; cbn; auto.
  - unfold runFrame, bind, takeFrameCallbacks.
    match goal with |- registered (world_of (forEach ?pending ?f ?w0)) =>
      destruct (@forEach_rule (nat * nat) (fun _ w' => registered w') f)
        with (l := pending) (w := w0) as (w' & Hrun & Hr') end.
    + intros _ _ w1 Hr1. eexists. split; [apply animate_eq|].
      apply registered_animate in Hr1. rewrite animate_eq in Hr1. exact Hr1.
    + revert Hr. apply registered_same; cbn; auto.
    + rewrite Hrun. exact Hr'.
Qed.

Lemma registered_run (ops : list (Op num)) (w : World) :
  coherent w -> registered w -> admissible ops w -> registered (run ops w).
Proof.
  revert w. induction ops as [|o ops IH]; intros w Hc Hr Hadm; cbn in *.
  - exact Hr.
  - destruct Hadm as [Hok Hrest].
    pose proof (registered_step o Hc Hr Hok) as Hr'.
    destruct (coherent_step o Hc Hok) as (w' & Hstep & Hc').
    rewrite Hstep in Hrest, Hr' |- *. cbn in Hrest, Hr' |- *. now apply IH.
Qed.

(** X1. Wherever an admissible run from the fresh page has left the
    controller initialized, [destroy] returns with the window's [mousemove]
    listeners exactly as they were, at least one of them, and the next
    [mousemove] is stored in [mouseX], [mouseY]. *)
Theorem destroy_never_detaches (ops : list (Op num)) (e : MouseEvent num) :
  admissible ops World0 ->
  isInitialized (this (run ops World0)) = true ->
  exists w' w'',
    destroy (run ops World0) = Normal tt w' /\
    isInitialized (this w') = false /\
    trails (this w') = [] /\
    mousemoveListeners (window w') = mousemoveListeners (window (run ops World0)) /\
    mousemoveListeners (window w') <> [] /\
    dispatchMouseMove e w' = Normal tt w'' /\
    mouseX (this w'') = clientX e /\
    mouseY (this w'') = clientY e.
Proof.
  intros Hadm Hon.
  pose proof (coherent_run ops coherent_World0 Hadm) as (Hatt & _).
  pose proof (registered_run ops coherent_World0 registered_World0 Hadm)
    as [Hall Hne].
  destruct (destroy_spec Hatt Hon) as (w' & Hrun & Hthis & Hml & _).
  rewrite (without_fresh Hall) in Hml.
  exists w'. eexists. split; [exact Hrun|].
  rewrite Hthis. cbn [isInitialized trails].
  split; [reflexivity|]. split; [reflexivity|]. split; [exact Hml|].
  split; [rewrite Hml; auto|].
  split; [apply dispatchMouseMove_eq|].
  rewrite Hml. specialize (Hne Hon).
  destruct (mousemoveListeners (window (run ops World0))); [contradiction|].
  cbn. auto.
Qed.

(** X2. On an initialized controller reached by an admissible run,
    [updateConfig] with a positive marker count [k] returns with exactly
    [k] markers, whatever their number was. *)
Theorem updateConfig_positive_trailLength
    (ops : list (Op num)) (newConfig : Config num) (k : Z) :
  admissible ops World0 ->
  isInitialized (this (run ops World0)) = true ->
  trailLength newConfig = Some k ->
  (0 < k)%Z ->
  exists w',
    updateConfig newConfig (run ops World0) = Normal tt w' /\
    Z.of_nat (length (trails (this w'))) = k /\
    maxTrails (this w') = Some k.
Proof.
  intros Hadm Hon Hk Hpos.
  pose proof (coherent_run ops coherent_World0 Hadm) as Hc.
  destruct (updateConfig_spec newConfig Hc Hon) as (w' & Hrun & Hc' & Hon' & _ & Hlen & _).
  { unfold length_ok. rewrite Hk. lia. }
  exists w'. split; [exact Hrun|].
  rewrite Hk in Hlen. destruct (Z.eqb_spec k 0); [lia|].
  split; [rewrite Hlen; lia|].
  destruct Hc' as (_ & Hmax & _). rewrite (Hmax Hon'), Hlen. f_equal. lia.
Qed.

(** ** No admissible call throws *)

Lemma admissible_app (ops ops' : list (Op num)) (w : World) :
  admissible (ops ++ ops') w <-> admissible ops w /\ admissible ops' (run ops w).
Proof.
  revert w. induction ops as [|o ops IH]; intros w; cbn.
  - tauto.
  - rewrite IH. tauto.
Qed.

(** X3. After any admissible run from the fresh page, a further admissible
    call or event returns without an exception. *)
Theorem admissible_calls_return (ops : list (Op num)) (o : Op num) :
  admissible (ops ++ [o]) World0 ->
  exists w', step o (run ops World0) = Normal tt w'.
Proof.
  intros Hadm. apply admissible_app in Hadm. destruct Hadm as [Hops [Hok _]].
  pose proof (coherent_run ops coherent_World0 Hops) as Hc.
  destruct (coherent_step o Hc Hok) as (w' & Hstep & _).
  exists w'. exact Hstep.
Qed.

(** ** [trailSpeed] is never read *)

#[local] Abbreviation sim := (simulates (num:=num)).

Ltac alike_destruct H w1 w2 :=
  destruct w1 as [[[? ? ? ? ? ?] ? ? ? ? ? ?] ?];
  destruct w2 as [[[? ? ? ? ? ?] ? ? ? ? ? ?] ?];
  unfold alike, forget_world, forget_config, set_config in H;
  cbn in H; injection H; intros; subst.

Lemma sim_ret {A : Type} (a : A) : sim (ret a) (ret a).
Proof. intros w1 w2 H. cbn. now rewrite H. Qed.

Lemma sim_throw {A : Type} (e : Exn) : sim (@throw num A e) (throw e).
Proof. intros w1 w2 H. cbn. now rewrite H. Qed.

Lemma forget_outcome_Normal {A : Type} (o1 o2 : Outcome num A) (a : A) (w : World) :
  forget_outcome o1 = forget_outcome o2 ->
  o1 = Normal a w ->
  exists w', o2 = Normal a w' /\ alike w w'.
Proof.
  intros Ho ->. destruct o2 as [a' w'|e w']; cbn in Ho; [|discriminate].
  assert (Ha : a = a') by congruence.
  assert (Hw : forget_world w = forget_world w') by congruence.
  subst a'. exists w'. split; [reflexivity | exact Hw].
Qed.

Lemma forget_outcome_Thrown {A : Type} (o1 o2 : Outcome num A) (e : Exn) (w : World) :
  forget_outcome o1 = forget_outcome o2 ->
  o1 = Thrown e w ->
  exists w', o2 = Thrown e w' /\ alike w w'.
Proof.
  intros Ho ->. destruct o2 as [a' w'|e' w']; cbn in Ho; [discriminate|].
  assert (He : e = e') by congruence.
  assert (Hw : forget_world w = forget_world w') by congruence.
  subst e'. exists w'. split; [reflexivity | exact Hw].
Qed.

Lemma sim_bind {A B : Type} (m1 m2 : M num A) (k1 k2 : A -> M num B) :
  sim m1 m2 -> (forall a, sim (k1 a) (k2 a)) -> sim (bind m1 k1) (bind m2 k2).
Proof.
  intros Hm Hk w1 w2 H. unfold bind. specialize (Hm w1 w2 H).
  destruct (m1 w1) as [a w1'|e w1'] eqn:H1.
  - destruct (forget_outcome_Normal _ Hm eq_refl) as (w2' & -> & Hw).
    now apply Hk.
  - destruct (forget_outcome_Thrown _ Hm eq_refl) as (w2' & -> & Hw).
    cbn. now rewrite Hw.
Qed.

Lemma sim_times (n : nat) (m1 m2 : M num unit) :
  sim m1 m2 -> sim (times n m1) (times n m2).
Proof.
  intros Hm. induction n as [|n IH]; cbn.
  - apply sim_ret.
  - apply sim_bind; [exact Hm | intros _; exact IH].
Qed.

Lemma sim_forEach {A : Type} (l : list A) (f1 f2 : A -> M num unit) :
  (forall a, sim (f1 a) (f2 a)) -> sim (forEach l f1) (forEach l f2).
Proof.
  intros Hf. induction l as [|a l IH]; cbn.
  - apply sim_ret.
  - apply sim_bind; [apply Hf | intros _; exact IH].
Qed.

Lemma alike_window (w1 w2 : World) : alike w1 w2 -> window w1 = window w2.
Proof. intros H. apply (f_equal (@window num)) in H. exact H. Qed.

Lemma sim_removeChild (n : nat) : sim (removeChild n) (removeChild n).
Proof.
  intros w1 w2 H. rewrite !removeChild_eq, (alike_window H).
  destruct (member n (body (window w2))); alike_destruct H w1 w2; reflexivity.
Qed.

Lemma sim_newTrail : sim newTrail newTrail.
Proof.
  intros w1 w2 H. rewrite !newTrail_eq. alike_destruct H w1 w2. reflexivity.
Qed.

Lemma removeLast_eq (w : World) :
  removeLast w =
  match unsnoc (trails (this w)) with
  | Some (front, last) =>
      removeChild (node (element last))
        (mkWorld (set_trails front (this w)) (window w))
  | None => Thrown TypeError w
  end.
Proof.
  unfold removeLast, pop, bind, get_this.
  destruct (unsnoc (trails (this w))) as [[front last]|]; reflexivity.
Qed.

Lemma sim_removeLast : sim removeLast removeLast.
Proof.
  intros w1 w2 H. rewrite !removeLast_eq.
  assert (Htr : trails (this w1) = trails (this w2)).
  { alike_destruct H w1 w2. reflexivity. }
  rewrite Htr. destruct (unsnoc (trails (this w2))) as [[front last]|].
  - apply sim_removeChild. alike_destruct H w1 w2. reflexivity.
  - cbn. now rewrite H.
Qed.

Lemma sim_trackMouse (e : MouseEvent num) : sim (trackMouse e) (trackMouse e).
Proof.
  intros w1 w2 H. rewrite !trackMouse_eq. alike_destruct H w1 w2. reflexivity.
Qed.

Lemma sim_animate : sim animate animate.
Proof.
  intros w1 w2 H. rewrite !animate_eq. alike_destruct H w1 w2. reflexivity.
Qed.

Ltac sim_direct :=
  let w1 := fresh "w" in
  let w2 := fresh "w" in
  let H := fresh "H" in
  intros w1 w2 H; alike_destruct H w1 w2; reflexivity.

Lemma sim_bindFunction : sim bindFunction bindFunction.
Proof. sim_direct. Qed.

Lemma sim_addEventListener (f : nat) : sim (addEventListener f) (addEventListener f).
Proof. sim_direct. Qed.

Lemma sim_removeEventListener (f : nat) :
  sim (removeEventListener f) (removeEventListener f).
Proof. sim_direct. Qed.

Lemma sim_cancelAnimationFrame (h : option nat) :
  sim (cancelAnimationFrame h) (cancelAnimationFrame h).
Proof. destruct h; sim_direct. Qed.

Lemma sim_takeFrameCallbacks : sim takeFrameCallbacks takeFrameCallbacks.
Proof. sim_direct. Qed.

Lemma sim_set_flag (v : bool) :
  sim (update_this (set_isInitialized v)) (update_this (set_isInitialized v)).
Proof. sim_direct. Qed.

Lemma sim_set_animationFrame (v : option nat) :
  sim (update_this (set_animationFrame v)) (update_this (set_animationFrame v)).
Proof. sim_direct. Qed.

Lemma sim_set_trails (v : list Trail) :
  sim (update_this (set_trails v)) (update_this (set_trails v)).
Proof. sim_direct. Qed.

Lemma sim_set_maxTrails :
  sim (update_this (fun c => set_maxTrails (trailLength (config c)) c))
      (update_this (fun c => set_maxTrails (trailLength (config c)) c)).
Proof. sim_direct. Qed.

(** Reading [this] is allowed when what is done with it is alike. *)
Lemma sim_get_this {A : Type} (k1 k2 : Cursory num -> M num A) :
  (forall w1 w2, alike w1 w2 ->
     forget_outcome (k1 (this w1) w1) = forget_outcome (k2 (this w2) w2)) ->
  sim (bind get_this k1) (bind get_this k2).
Proof. intros Hk w1 w2 H. now apply Hk. Qed.

Lemma forget_config_fields (c1 c2 : Config num) :
  forget_config c1 = forget_config c2 ->
  trailColor c1 = trailColor c2 /\
  trailLength c1 = trailLength c2 /\
  cursorSize c1 = cursorSize c2 /\
  opacity c1 = opacity c2 /\
  followSpeed c1 = followSpeed c2.
Proof.
  destruct c1, c2. unfold forget_config. cbn. intros H.
  injection H; intros; subst. repeat split.
Qed.

Lemma sim_init (cfg1 cfg2 : Config num) :
  forget_config cfg1 = forget_config cfg2 -> sim (init cfg1) (init cfg2).
Proof.
  intros Hcfg. apply forget_config_fields in Hcfg.
  destruct Hcfg as (Hc & Hl & Hs & Ho & Hf).
  unfold init. apply sim_bind.
  { intros w1 w2 H. alike_destruct H w1 w2. cbn.
    unfold forget_world, forget_config, set_config. cbn.
    rewrite Hc, Hl, Hs, Ho, Hf. reflexivity. }
  intros _. apply sim_bind; [apply sim_set_maxTrails|].
  intros _. apply sim_get_this. intros w1 w2 H.
  assert (Hm : maxTrails (this w1) = maxTrails (this w2)).
  { alike_destruct H w1 w2. reflexivity. }
  rewrite Hm. clear Hm. generalize (maxTrails (this w2)). intros m.
  revert w1 w2 H.
  apply sim_bind; [apply sim_times, sim_newTrail|].
  intros _. apply sim_bind; [apply sim_bindFunction|].
  intros f. apply sim_bind; [apply sim_addEventListener|].
  intros _. apply sim_bind; [apply sim_animate|].
  intros _. apply sim_set_flag.
Qed.

Lemma sim_updateConfig (cfg1 cfg2 : Config num) :
  forget_config cfg1 = forget_config cfg2 ->
  sim (updateConfig cfg1) (updateConfig cfg2).
Proof.
  intros Hcfg. apply forget_config_fields in Hcfg.
  destruct Hcfg as (Hc & Hl & Hs & Ho & Hf).
  unfold updateConfig. apply sim_get_this. intros w1 w2 H.
  assert (Hi : isInitialized (this w1) = isInitialized (this w2)).
  { alike_destruct H w1 w2. reflexivity. }
  rewrite Hi. destruct (isInitialized (this w2)); cbn [negb].
  2:{ cbn. now rewrite H. }
  clear Hi. revert w1 w2 H.
  apply sim_bind.
  { intros w1 w2 H. alike_destruct H w1 w2. cbn.
    unfold forget_world, forget_config, set_config. cbn.
    rewrite Hc, Hl, Hs, Ho, Hf. reflexivity. }
  intros _. apply sim_bind.
  { sim_direct. }
  intros _. apply sim_get_this. intros w1 w2 H.
  rewrite Hl. destruct (trailLength cfg2) as [k|]; [|cbn; now rewrite H].
  assert (Hm : maxTrails (this w1) = maxTrails (this w2)).
  { alike_destruct H w1 w2. reflexivity. }
  rewrite Hm. clear Hm. generalize (maxTrails (this w2)). intros m.
  destruct (truthy k && strict_neq k m); [|cbn; now rewrite H].
  revert w1 w2 H.
  apply sim_bind; [|intros _; apply sim_set_maxTrails].
  destruct (greater k m); apply sim_times.
  - apply sim_newTrail.
  - apply sim_removeLast.
Qed.

Lemma sim_destroy : sim destroy destroy.
Proof.
  unfold destroy. apply sim_get_this. intros w1 w2 H.
  assert (Hi : isInitialized (this w1) = isInitialized (this w2)).
  { alike_destruct H w1 w2. reflexivity. }
  assert (Htr : trails (this w1) = trails (this w2)).
  { alike_destruct H w1 w2. reflexivity. }
  rewrite Hi, Htr. clear Hi Htr.
  destruct (isInitialized (this w2)); cbn [negb]; [|cbn; now rewrite H].
  generalize (trails (this w2)). intros l. revert w1 w2 H.
  apply sim_bind; [apply sim_forEach; intros t; apply sim_removeChild|].
  intros _. apply sim_bind; [apply sim_set_trails|].
  intros _. apply sim_bind; [apply sim_bindFunction|].
  intros f. apply sim_bind; [apply sim_removeEventListener|].
  intros _. apply sim_get_this. intros w1 w2 H.
  assert (Ha : animationFrame (this w1) = animationFrame (this w2)).
  { alike_destruct H w1 w2. reflexivity. }
  rewrite Ha. clear Ha. generalize (animationFrame (this w2)). intros h.
  revert w1 w2 H.
  apply sim_bind; [apply sim_cancelAnimationFrame|].
  intros _. apply sim_bind; [apply sim_set_animationFrame|].
  intros _. apply sim_set_flag.
Qed.

Lemma sim_dispatchMouseMove (e : MouseEvent num) :
  sim (dispatchMouseMove e) (dispatchMouseMove e).
Proof.
  intros w1 w2 H. unfold dispatchMouseMove, bind, get_window.
  rewrite (alike_window H).
  generalize (mousemoveListeners (window w2)). intros l. revert w1 w2 H.
  apply sim_forEach. intros _. apply sim_trackMouse.
Qed.

Lemma sim_runFrame : sim runFrame runFrame.
Proof.
  unfold runFrame. apply sim_bind; [apply sim_takeFrameCallbacks|].
  intros pending. apply sim_forEach. intros _. apply sim_animate.
Qed.

Lemma sim_step (o1 o2 : Op num) :
  forget_op o1 = forget_op o2 -> sim (step o1) (step o2).
Proof.
  destruct o1, o2; cbn; intros Ho; try discriminate.
  - apply sim_init. congruence.
  - assert (e = e0) by congruence. subst. apply sim_trackMouse.
  - apply sim_animate.
  - apply sim_updateConfig. congruence.
  - apply sim_destroy.
  - assert (e = e0) by congruence. subst. apply sim_dispatchMouseMove.
  - apply sim_runFrame.
Qed.

Lemma alike_world_of {A : Type} (o1 o2 : Outcome num A) :
  forget_outcome o1 = forget_outcome o2 -> alike (world_of o1) (world_of o2).
Proof.
  destruct o1, o2; cbn; intros H; try discriminate; unfold alike; congruence.
Qed.

Lemma alike_run (ops1 ops2 : list (Op num)) (w1 w2 : World) :
  map forget_op ops1 = map forget_op ops2 ->
  alike w1 w2 ->
  alike (run ops1 w1) (run ops2 w2).
Proof.
  revert ops2 w1 w2. induction ops1 as [|o1 ops1 IH];
    intros [|o2 ops2] w1 w2 Hops H; cbn in *; try discriminate.
  - exact H.
  - injection Hops as Ho Hrest. apply IH; [exact Hrest|].
    apply alike_world_of. now apply sim_step.
Qed.

Lemma alike_trails (w1 w2 : World) :
  alike w1 w2 -> trails (this w1) = trails (this w2).
Proof. intros H. alike_destruct H w1 w2. reflexivity. Qed.

(** C6. [trailSpeed] is taken into the configuration and then never read.
    [init] stores the given [trailSpeed] (0.5 when none is given); and two
    runs whose calls and events are the same up to the [trailSpeed] of the
    configurations passed, from states that are the same up to the stored
    [trailSpeed], end in states that are the same up to the stored
    [trailSpeed]: the same markers at the same positions with the same
    styles, the same pointer, the same page. *)
Theorem trailSpeed_never_read
    (ops1 ops2 : list (Op num)) (w1 w2 : World) :
  map forget_op ops1 = map forget_op ops2 ->
  forget_world w1 = forget_world w2 ->
  (forall cfg w,
     trailSpeed (config (this (world_of (init cfg w)))) =
     Some match trailSpeed cfg with
          | Some s => s
          | None => lit_0_5
          end) /\
  forget_world (run ops1 w1) = forget_world (run ops2 w2) /\
  trails (this (run ops1 w1)) = trails (this (run ops2 w2)).
Proof.
  intros Hops Hw. split; [|split].
  - intros cfg w.
    destruct (init_spec cfg w) as (w' & created & Hrun & _ & _ & Hthis & _).
    rewrite Hrun. cbn [world_of]. rewrite Hthis. cbn.
    destruct (trailSpeed cfg); reflexivity.
  - now apply alike_run.
  - apply alike_trails. now apply alike_run.
Qed.

(** ** Rules for triples *)

Lemma triple_ret {A : Type} (P : A -> World -> Prop) (E : Exn -> World -> Prop)
    (a : A) :
  triple (P a) (ret a) P E.
Proof. intros w Hw. exact Hw. Qed.

Lemma triple_throw {A : Type} (Q : A -> World -> Prop)
    (E : Exn -> World -> Prop) (e : Exn) :
  triple (E e) (throw e) Q E.
Proof. intros w Hw. exact Hw. Qed.

Lemma triple_bind {A B : Type} (P : World -> Prop) (Q : A -> World -> Prop)
    (R : B -> World -> Prop) (E : Exn -> World -> Prop)
    (m : M num A) (k : A -> M num B) :
  triple P m Q E ->
  (forall a, triple (Q a) (k a) R E) ->
  triple P (bind m k) R E.
Proof.
  intros Hm Hk w Hw. unfold bind. specialize (Hm w Hw).
  destruct (m w) as [a w'|e w']; [now apply Hk | exact Hm].
Qed.

Lemma triple_weaken {A : Type} (P P' : World -> Prop)
    (Q Q' : A -> World -> Prop) (E E' : Exn -> World -> Prop) (m : M num A) :
  triple P m Q E ->
  (forall w, P' w -> P w) ->
  (forall a w, Q a w -> Q' a w) ->
  (forall e w, E e w -> E' e w) ->
  triple P' m Q' E'.
Proof.
  intros Hm HP HQ HE w Hw. specialize (Hm w (HP w Hw)).
  destruct (m w); auto.
Qed.

Lemma triple_get_this {A : Type} (P : World -> Prop) (Q : A -> World -> Prop)
    (E : Exn -> World -> Prop) (k : Cursory num -> M num A) :
  (forall c, triple (fun w => P w /\ this w = c) (k c) Q E) ->
  triple P (bind get_this k) Q E.
Proof. intros Hk w Hw. apply (Hk (this w)). auto. Qed.

Lemma triple_get_window {A : Type} (P : World -> Prop) (Q : A -> World -> Prop)
    (E : Exn -> World -> Prop) (k : Browser -> M num A) :
  (forall b, triple (fun w => P w /\ window w = b) (k b) Q E) ->
  triple P (bind get_window k) Q E.
Proof. intros Hk w Hw. apply (Hk (window w)). auto. Qed.

Lemma triple_times (J : World -> Prop) (E : Exn -> World -> Prop)
    (m : M num unit) (n : nat) :
  triple J m (fun _ => J) E -> triple J (times n m) (fun _ => J) E.
Proof.
  intros Hm. induction n as [|n IH]; cbn.
  - intros w Hw. exact Hw.
  - eapply triple_bind; [exact Hm | intros []; exact IH].
Qed.

Lemma triple_forEach {A : Type} (J : World -> Prop) (E : Exn -> World -> Prop)
    (f : A -> M num unit) (l : list A) :
  (forall a, In a l -> triple J (f a) (fun _ => J) E) ->
  triple J (forEach l f) (fun _ => J) E.
Proof.
  induction l as [|a l IH]; intros Hf; cbn.
  - intros w Hw. exact Hw.
  - eapply triple_bind; [apply Hf; now left|].
    intros []. apply IH. intros b Hb. apply Hf. now right.
Qed.

(** A call that cannot throw and whose effect is a function of the state. *)
Lemma triple_pure {A : Type} (P : World -> Prop) (Q : A -> World -> Prop)
    (E : Exn -> World -> Prop) (m : M num A) (a : World -> A)
    (f : World -> World) :
  (forall w, m w = Normal (a w) (f w)) ->
  (forall w, P w -> Q (a w) (f w)) ->
  triple P m Q E.
Proof. intros Hm HQ w Hw. rewrite Hm. now apply HQ. Qed.

(** ** The page and the array stay in step, whatever is called *)

Lemma updateConfig_eq (newConfig : Config num) (w : World) :
  isInitialized (this w) = true ->
  updateConfig newConfig w =
  match trailLength newConfig with
  | Some k =>
      if truthy k && strict_neq k (maxTrails (this w))
      then resize k (maxTrails (this w)) (restyled newConfig w)
      else Normal tt (restyled newConfig w)
  | None => Normal tt (restyled newConfig w)
  end.
Proof.
  intros Hon. unfold updateConfig, bind at 1, get_this. rewrite Hon.
  cbn [negb]. unfold bind at 1, update_this at 1.
  unfold bind at 1, update_this at 1. unfold bind at 1, get_this.
  cbn [this window config trails maxTrails set_config set_trails].
  destruct (trailLength newConfig) as [k|]; [|reflexivity].
  destruct (truthy k && strict_neq k (maxTrails (this w))); [|reflexivity].
  unfold resize. destruct (greater k (maxTrails (this w))); reflexivity.
Qed.

Lemma unsnoc_None {A : Type} (l : list A) : unsnoc l = None -> l = [].
Proof.
  destruct l as [|a l]; [reflexivity|]. cbn.
  destruct (unsnoc l) as [[front z]|]; discriminate.
Qed.

Lemma unsnoc_Some {A : Type} (l front : list A) (z : A) :
  unsnoc l = Some (front, z) -> l = front ++ [z].
Proof.
  revert front. induction l as [|a l IH]; intros front; cbn; [discriminate|].
  destruct (unsnoc l) as [[front' z']|] eqn:Hl.
  - intros Heq. injection Heq as <- <-. cbn. f_equal. now apply IH.
  - intros Heq. injection Heq as <- <-. apply unsnoc_None in Hl. now subst.
Qed.

Lemma without_last (n : nat) (l : list nat) :
  ~ In n l -> without n (l ++ [n]) = l.
Proof.
  intros Hn. unfold without. rewrite filter_app. cbn.
  rewrite Nat.eqb_refl. cbn. rewrite app_nil_r.
  apply forallb_filter_id. apply forallb_forall. intros m Hm.
  apply negb_true_iff, Nat.eqb_neq. intros ->. contradiction.
Qed.

Lemma synced_attached (w : World) : synced w -> attached w.
Proof.
  intros (Hb & Hnd & Hlt). unfold attached. rewrite <- Hb.
  split; [assumption|]. rewrite Forall_forall in Hlt |- *. auto.
Qed.

(** Synced states with the flag at [b]. *)
#[local] Abbreviation flagged b :=
  (fun w : World => synced w /\ isInitialized (this w) = b).

Lemma synced_same (w w' : World) :
  nodes (trails (this w')) = nodes (trails (this w)) ->
  window w' = window w ->
  synced w -> synced w'.
Proof. unfold synced. intros -> ->. exact (fun H => H). Qed.

Lemma flagged_newTrail (b : bool) (E : Exn -> World -> Prop) :
  triple (flagged b) newTrail (fun _ => flagged b) E.
Proof.
  intros w [(Hb & Hnd & Hlt) Hflag]. rewrite newTrail_eq. cbv zeta.
  split; [|exact Hflag]. unfold synced.
  cbn [this window trails set_trails body nextNode].
  rewrite nodes_app, (without_fresh Hlt), Hb. cbn [nodes map element node].
  split; [reflexivity|]. rewrite <- Hb. split.
  - apply NoDup_app; [assumption | repeat constructor; intros [] |].
    intros n Hn [Heq|[]]. subst n. rewrite Forall_forall in Hlt.
    apply Hlt in Hn. lia.
  - apply Forall_app. split; [|repeat constructor].
    revert Hlt. apply Forall_impl. intros n Hn. lia.
Qed.

Lemma flagged_removeLast (b : bool) :
  triple (flagged b) removeLast (fun _ => flagged b)
    (fun e w => e = TypeError /\ flagged b w /\ trails (this w) = []).
Proof.
  intros w [(Hb & Hnd & Hlt) Hflag]. rewrite removeLast_eq.
  destruct (unsnoc (trails (this w))) as [[front last]|] eqn:Hu.
  - apply unsnoc_Some in Hu. rewrite Hu, nodes_app in Hb.
    cbn [nodes map] in Hb. fold (nodes front) in Hb.
    rewrite removeChild_eq. cbn [this window].
    assert (Hin : member (node (element last)) (body (window w)) = true).
    { apply member_In. rewrite Hb. apply in_or_app. right. now left. }
    rewrite Hin. split; [|exact Hflag]. unfold synced.
    cbn [this window trails set_trails set_body body nextNode].
    rewrite Hb in Hnd, Hlt |- *.
    destruct (NoDup_remove _ _ _ Hnd) as [Hnd' Hni].
    rewrite app_nil_r in Hnd', Hni. rewrite (@without_last _ _ Hni).
    split; [reflexivity|]. split; [assumption|].
    apply Forall_app in Hlt. tauto.
  - apply unsnoc_None in Hu. repeat split; assumption.
Qed.

Lemma init_eq (cfg : Config num) (w : World) :
  init cfg w =
  (times (iterations (trailLength (spread defaultOptions cfg))) newTrail ;;
   init_finish) (init_start cfg w).
Proof. reflexivity. Qed.

Lemma init_finish_eq (w : World) :
  init_finish w =
  Normal tt
    (mkWorld
       (set_isInitialized true
          (set_animationFrame (Some (nextHandle (window w)))
             (set_trails (map (ease (this w)) (trails (this w))) (this w))))
       (mkBrowser (body (window w)) (nextNode (window w))
          (if member (nextFunction (window w)) (mousemoveListeners (window w))
           then mousemoveListeners (window w)
           else mousemoveListeners (window w) ++ [nextFunction (window w)])
          (S (S (nextFunction (window w))))
          (frameCallbacks (window w)
             ++ [(nextHandle (window w), S (nextFunction (window w)))])
          (S (nextHandle (window w))))).
Proof. reflexivity. Qed.

(** [init] never throws, and leaves a synced page synced. *)
Lemma init_synced (cfg : Config num) :
  triple synced (init cfg)
    (fun _ w' => synced w' /\ isInitialized (this w') = true)
    (fun _ _ => False).
Proof.
  intros w Hs. rewrite init_eq.
  eapply (@triple_bind unit unit (flagged (isInitialized (this w)))).
  - apply triple_times. apply flagged_newTrail.
  - intros [] w2 [Hs2 _]. rewrite init_finish_eq. split; [|reflexivity].
    revert Hs2. unfold synced.
    cbn [this window trails set_isInitialized set_animationFrame set_trails
         body nextNode].
    now rewrite nodes_ease.
  - split; [|reflexivity]. revert Hs. apply synced_same; reflexivity.
Qed.

Lemma restyled_flagged (newConfig : Config num) (w : World) :
  synced w -> flagged (isInitialized (this w)) (restyled newConfig w).
Proof.
  intros Hs. split; [|reflexivity]. revert Hs.
  apply synced_same; [apply nodes_restyle | reflexivity].
Qed.

Lemma resize_flagged (k : Z) (bound : option Z) (b : bool) :
  triple
    (fun w => flagged b w /\ trailLength (config (this w)) = Some k /\
              exists m, maxTrails (this w) = Some m)
    (resize k bound)
    (fun _ w => flagged b w /\ maxTrails (this w) = Some k)
    (fun e w => e = TypeError /\ flagged b w /\ trails (this w) = [] /\
                exists m, maxTrails (this w) = Some m).
Proof.
  unfold resize. set (P := fun w : World =>
    flagged b w /\ trailLength (config (this w)) = Some k /\
    exists m, maxTrails (this w) = Some m).
  assert (Hnew : triple P newTrail (fun _ => P)
            (fun e w => e = TypeError /\ flagged b w /\ trails (this w) = [] /\
                        exists m, maxTrails (this w) = Some m)).
  { intros w (Hf & Hk & Hm).
    pose proof (@flagged_newTrail b (fun _ _ => True) w Hf) as H.
    rewrite newTrail_eq in H |- *. cbv zeta in H |- *.
    split; [exact H|]. split; [exact Hk | exact Hm]. }
  assert (Hdel : triple P removeLast (fun _ => P)
            (fun e w => e = TypeError /\ flagged b w /\ trails (this w) = [] /\
                        exists m, maxTrails (this w) = Some m)).
  { intros w (Hf & Hk & Hm). pose proof (@flagged_removeLast b w Hf) as H.
    rewrite removeLast_eq in H |- *.
    destruct (unsnoc (trails (this w))) as [[front last]|].
    - rewrite removeChild_eq in H |- *. cbn [this window] in H |- *.
      destruct (member _ _).
      + split; [exact H|]. split; [exact Hk | exact Hm].
      + destruct H as [He _]. discriminate.
    - destruct H as (He & Hf' & Hnil). auto. }
  eapply triple_bind with (Q := fun _ => P).
  - destruct (greater k bound); apply triple_times; assumption.
  - intros [] w ([Hs Hflag] & Hk & _).
    unfold update_this. cbn [this window config maxTrails set_maxTrails].
    split; [|exact Hk]. split; [|exact Hflag].
    revert Hs. apply synced_same; reflexivity.
Qed.

(** [updateConfig] keeps the page tidy; it can only throw a TypeError, and
    then it has popped every marker. *)
Lemma updateConfig_tidy (cfg : Config num) :
  triple tidy (updateConfig cfg) (fun _ => tidy)
    (fun e w => e = TypeError /\ tidy w /\ trails (this w) = [] /\
                isInitialized (this w) = true).
Proof.
  intros w (Hs & Hoff & Hm). destruct (isInitialized (this w)) eqn:Hon.
  2:{ rewrite (updateConfig_guard cfg _ Hon).
      split; [exact Hs|]. split; [intros _; now apply Hoff | exact Hm]. }
  rewrite (updateConfig_eq cfg _ Hon).
  pose proof (restyled_flagged cfg Hs) as Hr. rewrite Hon in Hr.
  assert (Htidy : tidy (restyled cfg w)).
  { destruct Hr as [Hs1 Hf1]. split; [exact Hs1|]. split; [|exact Hm].
    rewrite Hf1. discriminate. }
  destruct (trailLength cfg) as [k|] eqn:Hk; [|exact Htidy].
  destruct (truthy k && strict_neq k (maxTrails (this w))); [|exact Htidy].
  assert (Hpre : flagged true (restyled cfg w) /\
                 trailLength (config (this (restyled cfg w))) = Some k /\
                 exists m, maxTrails (this (restyled cfg w)) = Some m).
  { split; [exact Hr|]. split; [cbn; rewrite Hk; reflexivity | exact Hm]. }
  pose proof (@resize_flagged k (maxTrails (this w)) true (restyled cfg w) Hpre)
    as H.
  destruct (resize k (maxTrails (this w)) (restyled cfg w)) as [[] w'|e w'].
  - destruct H as [[Hs' Hf'] Hm'].
    split; [exact Hs'|]. split; [rewrite Hf'; discriminate | eauto].
  - destruct H as (He & [Hs' Hf'] & Hnil & Hm').
    split; [exact He|]. split; [|auto].
    split; [exact Hs'|]. split; [rewrite Hf'; discriminate | exact Hm'].
Qed.

Lemma tidy_World0 : tidy World0.
Proof.
  split; [|split].
  - split; [reflexivity|]. split; constructor.
  - reflexivity.
  - exists 10%Z. reflexivity.
Qed.

Lemma tidy_same (w w' : World) :
  nodes (trails (this w')) = nodes (trails (this w)) ->
  window w' = window w \/
    (body (window w') = body (window w) /\
     nextNode (window w') = nextNode (window w)) ->
  isInitialized (this w') = isInitialized (this w) ->
  maxTrails (this w') = maxTrails (this w) ->
  tidy w -> tidy w'.
Proof.
  intros Hn Hw Hi Hm ((Hb & Hnd & Hlt) & Hoff & Hmax).
  assert (Hbody : body (window w') = body (window w) /\
                  nextNode (window w') = nextNode (window w)).
  { destruct Hw as [->|Hw]; auto. }
  destruct Hbody as [Hb' Hnn].
  split; [|split].
  - unfold synced. rewrite Hb', Hnn, Hn. auto.
  - rewrite Hi. intros Hf. specialize (Hoff Hf).
    apply (f_equal (@length nat)) in Hn.
    rewrite !length_nodes, Hoff in Hn. now apply length_zero_iff_nil.
  - rewrite Hm. exact Hmax.
Qed.

Lemma tidy_trackMouse (e : MouseEvent num) :
  triple tidy (trackMouse e) (fun _ => tidy) (fun _ _ => False).
Proof.
  intros w Ht. rewrite trackMouse_eq. revert Ht.
  apply tidy_same; auto.
Qed.

Lemma tidy_animate :
  triple tidy animate (fun _ => tidy) (fun _ _ => False).
Proof.
  intros w Ht. rewrite animate_eq. revert Ht.
  apply tidy_same; cbn [this window trails set_animationFrame set_trails
                        isInitialized maxTrails body nextNode]; auto.
  apply nodes_ease.
Qed.

Lemma tidy_init (cfg : Config num) :
  triple tidy (init cfg) (fun _ => tidy) (fun _ _ => False).
Proof.
  intros w (Hs & _ & _).
  pose proof (init_synced cfg Hs) as H.
  destruct (init_spec cfg w) as (w' & created & Hrun & _ & _ & Hthis & _).
  rewrite Hrun in H |- *. destruct H as [Hs' Hon].
  split; [exact Hs'|]. split; [rewrite Hon; discriminate|].
  rewrite Hthis. cbn [maxTrails]. rewrite trailLength_defaulted. eauto.
Qed.

(** [destroy] never throws on a tidy page, and clears it. *)
Lemma destroy_tidy (w : World) :
  tidy w ->
  exists w',
    destroy w = Normal tt w' /\
    tidy w' /\
    isInitialized (this w') = false /\
    trails (this w') = [] /\
    body (window w') = [].
Proof.
  intros (Hs & Hoff & Hm). destruct (isInitialized (this w)) eqn:Hon.
  - destruct (destroy_spec (synced_attached Hs) Hon)
      as (w' & Hrun & Hthis & _ & _ & Hbody).
    assert (Hb : body (window w') = []).
    { destruct (body (window w')) as [|n l] eqn:Hl; [reflexivity|].
      exfalso. destruct (proj1 (Hbody n)) as [Hin Hout]; [now left|].
      destruct Hs as (Hbn & _). rewrite Hbn in Hin. contradiction. }
    exists w'. split; [exact Hrun|].
    split; [|rewrite Hthis; cbn; auto].
    split; [|split].
    + unfold synced. rewrite Hthis, Hb. cbn. repeat split; constructor.
    + intros _. rewrite Hthis. reflexivity.
    + rewrite Hthis. exact Hm.
  - exists w. specialize (Hoff eq_refl).
    split; [now apply destroy_guard|].
    split; [split; auto|]. split; [exact Hon|]. split; [exact Hoff|].
    destruct Hs as (Hb & _). rewrite Hb, Hoff. reflexivity.
Qed.

Lemma tidy_dispatchMouseMove (e : MouseEvent num) :
  triple tidy (dispatchMouseMove e) (fun _ => tidy) (fun _ _ => False).
Proof.
  intros w Ht. rewrite dispatchMouseMove_eq.
  destruct (mousemoveListeners (window w)); [exact Ht|].
  revert Ht. apply tidy_same; auto.
Qed.

Lemma tidy_runFrame :
  triple tidy runFrame (fun _ => tidy) (fun _ _ => False).
Proof.
  unfold runFrame. eapply triple_bind with (Q := fun _ => tidy).
  - intros w Ht. unfold takeFrameCallbacks. revert Ht.
    apply tidy_same; cbn; auto.
  - intros pending. apply triple_forEach. intros _ _. apply tidy_animate.
Qed.

(** Every call and event keeps the page tidy; only [updateConfig] can
    throw, a TypeError, after popping every marker. *)
Lemma tidy_step (o : Op num) :
  triple tidy (step o) (fun _ => tidy)
    (fun e w =>
       e = TypeError /\ tidy w /\ trails (this w) = [] /\
       isInitialized (this w) = true /\ exists cfg, o = UpdateConfig cfg).
Proof.
  destruct o as [cfg|e| |cfg| |e| ]; cbn [step].
  - eapply triple_weaken; [apply tidy_init | auto | auto | contradiction].
  - eapply triple_weaken; [apply tidy_trackMouse | auto | auto | contradiction].
  - eapply triple_weaken; [apply tidy_animate | auto | auto | contradiction].
  - eapply triple_weaken; [apply updateConfig_tidy | auto | auto |].
    intros e w (He & Ht & Hnil & Hon). eauto 10.
  - intros w Ht. destruct (destroy_tidy Ht) as (w' & -> & Ht' & _). exact Ht'.
  - eapply triple_weaken;
      [apply tidy_dispatchMouseMove | auto | auto | contradiction].
  - eapply triple_weaken; [apply tidy_runFrame | auto | auto | contradiction].
Qed.

Lemma tidy_run (ops : list (Op num)) (w : World) :
  tidy w -> tidy (run ops w).
Proof.
  revert w. induction ops as [|o ops IH]; intros w Ht; cbn; [exact Ht|].
  apply IH. pose proof (tidy_step o Ht) as H.
  destruct (step o w); cbn; tauto.
Qed.

(** X4. After any sequence of calls and events whatsoever from the fresh
    page ([init] twice, negative marker counts, calls that threw), the
    children of [document.body] are the [div]s of the markers in [trails],
    in the same order; and a controller that is not initialized has no
    marker and no [div]. *)
Theorem page_follows_trails (ops : list (Op num)) :
  body (window (run ops World0)) = nodes (trails (this (run ops World0))) /\
  NoDup (nodes (trails (this (run ops World0)))) /\
  (isInitialized (this (run ops World0)) = true \/
   (trails (this (run ops World0)) = [] /\ body (window (run ops World0)) = [])).
Proof.
  destruct (tidy_run ops tidy_World0) as ((Hb & Hnd & _) & Hoff & _).
  split; [exact Hb|]. split; [rewrite <- Hb; exact Hnd|].
  destruct (isInitialized (this (run ops World0))); [now left|].
  right. specialize (Hoff eq_refl). rewrite Hb, Hoff. auto.
Qed.

(** X5. After any sequence of calls and events whatsoever from the fresh
    page, [destroy] returns without an exception and leaves no marker: the
    array is empty, no [div] of the controller is on the page, and the
    controller is not initialized. *)
Theorem destroy_clears_page (ops : list (Op num)) :
  exists w',
    destroy (run ops World0) = Normal tt w' /\
    trails (this w') = [] /\
    body (window w') = [] /\
    isInitialized (this w') = false.
Proof.
  destruct (destroy_tidy (tidy_run ops tidy_World0))
    as (w' & Hrun & _ & Hoff & Hnil & Hb).
  exists w'. auto.
Qed.

(** ** When a call throws *)

(** X6. After any sequence of calls and events from the fresh page, a call
    or event that throws is a call of [updateConfig]; what it throws is a
    TypeError (the [pop] of an empty array gave [undefined]), and it leaves
    the controller initialized with no marker in the array and no [div] on
    the page. *)
Theorem only_updateConfig_throws
    (ops : list (Op num)) (o : Op num) (e : Exn) (w' : World) :
  step o (run ops World0) = Thrown e w' ->
  e = TypeError /\
  (exists cfg, o = UpdateConfig cfg) /\
  isInitialized (this w') = true /\
  trails (this w') = [] /\
  body (window w') = [].
Proof.
  intros Hthrown.
  pose proof (tidy_step o (tidy_run ops tidy_World0)) as H.
  rewrite Hthrown in H. destruct H as (He & ((Hb & _) & _) & Hnil & Hon & Ho).
  repeat split; auto. rewrite Hb, Hnil. reflexivity.
Qed.

Lemma removeLast_pops (b : bool) (w : World) :
  flagged b w ->
  trails (this w) <> [] ->
  exists w',
    removeLast w = Normal tt w' /\ flagged b w' /\
    S (length (trails (this w'))) = length (trails (this w)).
Proof.
  intros Hf Hne. pose proof (flagged_removeLast Hf) as H.
  rewrite removeLast_eq in H |- *.
  destruct (unsnoc (trails (this w))) as [[front last]|] eqn:Hu.
  - apply unsnoc_Some in Hu. rewrite removeChild_eq in H |- *.
    cbn [this window] in H |- *. destruct (member _ _).
    + eexists. split; [reflexivity|]. split; [exact H|].
      cbn. rewrite Hu, length_app. cbn. lia.
    + destruct H as [He _]. discriminate.
  - apply unsnoc_None in Hu. contradiction.
Qed.

(** More rounds of the removing loop than there are markers end in a
    TypeError. *)
Lemma times_removeLast_throws (b : bool) (n : nat) (w : World) :
  flagged b w ->
  length (trails (this w)) < n ->
  exists w', times n removeLast w = Thrown TypeError w'.
Proof.
  revert w. induction n as [|n IH]; intros w Hf Hlt; [lia|].
  cbn [times]. unfold bind.
  destruct (trails (this w)) as [|t l] eqn:Htr.
  - rewrite removeLast_eq, Htr. cbn. eauto.
  - destruct (@removeLast_pops b w Hf) as (w1 & Hrm & Hf1 & Hlen).
    { rewrite Htr. discriminate. }
    rewrite Hrm. apply IH; [exact Hf1|]. rewrite Htr in Hlen.
    cbn in Hlen, Hlt. lia.
Qed.

Lemma times_newTrail_returns (n : nat) (w : World) :
  exists w', times n newTrail w = Normal tt w'.
Proof.
  destruct (times_newTrail n w) as (w' & created & Hrun & _). eauto.
Qed.

(** X7. After any sequence of calls and events from the fresh page,
    [updateConfig(cfg)] throws exactly when the controller is initialized
    and [cfg.trailLength] is a number [k], not zero, below [maxTrails] by
    more than there are markers to remove. *)
Theorem updateConfig_throws_iff (ops : list (Op num)) (cfg : Config num) :
  (exists e w', updateConfig cfg (run ops World0) = Thrown e w') <->
  (isInitialized (this (run ops World0)) = true /\
   exists k m,
     trailLength cfg = Some k /\
     maxTrails (this (run ops World0)) = Some m /\
     k <> 0%Z /\
     (Z.of_nat (length (trails (this (run ops World0)))) < m - k)%Z).
Proof.
  destruct (tidy_run ops tidy_World0) as (Hs & Hoff & [m Hm]).
  set (w := run ops World0) in *.
  destruct (isInitialized (this w)) eqn:Hon.
  2:{ rewrite (updateConfig_guard cfg _ Hon). split.
      - intros (e & w' & H). discriminate.
      - intros [H _]. discriminate. }
  rewrite (updateConfig_eq cfg _ Hon), Hm.
  pose proof (restyled_flagged cfg Hs) as Hr. rewrite Hon in Hr.
  assert (Hlen : length (trails (this (restyled cfg w))) = length (trails (this w))).
  { cbn. apply length_map. }
  destruct (trailLength cfg) as [k|] eqn:Hk.
  2:{ split.
      - intros (e & w' & H). discriminate.
      - intros (_ & k & m' & H & _). discriminate. }
  unfold truthy, strict_neq, resize, greater, difference.
  destruct (Z.eqb_spec k 0) as [Hz|Hnz]; cbn [negb andb].
  { split.
    - intros (e & w' & H). discriminate.
    - intros (_ & k' & m' & Hk' & _ & Hnz & _). congruence. }
  destruct (Z.eqb_spec k m) as [Hkm|Hkm]; cbn [negb].
  { split.
    - intros (e & w' & H). discriminate.
    - intros (_ & k' & m' & Hk' & Hm' & _ & Hlt).
      assert (k' = k) by congruence. assert (m' = m) by congruence. lia. }
  destruct (Z.ltb_spec m k) as [Hgt|Hle]; cbn [iterations]; unfold bind.
  - destruct (times_newTrail_returns (Z.to_nat (k - m)) (restyled cfg w))
      as [w2 ->]. split.
    + intros (e & w' & H). discriminate.
    + intros (_ & k' & m' & Hk' & Hm' & _ & Hlt).
      assert (k' = k) by congruence. assert (m' = m) by congruence. lia.
  - destruct (Z_lt_le_dec (Z.of_nat (length (trails (this w)))) (m - k))
      as [Hshort|Henough].
    + destruct (@times_removeLast_throws true (Z.to_nat (m - k))
                  (restyled cfg w) Hr) as [w2 Hthrow].
      { rewrite Hlen. lia. }
      rewrite Hthrow. split; [|eauto].
      intros _. split; [reflexivity|]. exists k, m. auto.
    + destruct (@times_removeLast (Z.to_nat (m - k)) (restyled cfg w)
                  (synced_attached (proj1 Hr)))
        as (w2 & rest & removed & Hrun & _).
      { rewrite Hlen. lia. }
      rewrite Hrun. split.
      * intros (e & w' & H). discriminate.
      * intros (_ & k' & m' & Hk' & Hm' & _ & Hlt).
        assert (k' = k) by congruence. assert (m' = m) by congruence. lia.
Qed.

(** ** The [mousemove] listeners only ever grow *)

#[local] Abbreviation listening := (listening (num:=num)).

Lemma listening_same (l : list nat) (w w' : World) :
  mousemoveListeners (window w') = mousemoveListeners (window w) ->
  nextFunction (window w) <= nextFunction (window w') ->
  listening l w -> listening l w'.
Proof.
  intros Hl Hn [Hw Hall]. unfold listening. rewrite Hl. split; [exact Hw|].
  revert Hall. apply Forall_impl. intros f Hf. lia.
Qed.

Lemma listening_newTrail (l : list nat) :
  keeps (listening l) newTrail.
Proof.
  intros w Hl. rewrite newTrail_eq. revert Hl. apply listening_same; cbn; auto.
Qed.

Lemma listening_removeChild (l : list nat) (n : nat) :
  keeps (listening l) (removeChild n).
Proof.
  intros w Hl. rewrite removeChild_eq.
  destruct (member n (body (window w))); [|exact Hl].
  revert Hl. apply listening_same; cbn; auto.
Qed.

Lemma listening_removeLast (l : list nat) :
  keeps (listening l) removeLast.
Proof.
  intros w Hl. rewrite removeLast_eq.
  destruct (unsnoc (trails (this w))) as [[front last]|]; [|exact Hl].
  apply listening_removeChild. revert Hl. apply listening_same; cbn; auto.
Qed.

Lemma listening_animate (l : list nat) :
  keeps (listening l) animate.
Proof.
  intros w Hl. rewrite animate_eq. revert Hl. apply listening_same; cbn; auto.
Qed.

Lemma listening_updateConfig (l : list nat) (cfg : Config num) :
  keeps (listening l) (updateConfig cfg).
Proof.
  intros w Hl. destruct (isInitialized (this w)) eqn:Hon.
  2:{ rewrite (updateConfig_guard cfg _ Hon). exact Hl. }
  rewrite (updateConfig_eq cfg _ Hon).
  assert (Hr : listening l (restyled cfg w)).
  { revert Hl. apply listening_same; cbn; auto. }
  destruct (trailLength cfg) as [k|]; [|exact Hr].
  destruct (truthy k && strict_neq k (maxTrails (this w))); [|exact Hr].
  revert Hr. generalize (restyled cfg w). unfold resize.
  eapply triple_bind with (Q := fun _ => listening l).
  - destruct (greater k (maxTrails (this w))); apply triple_times.
    + apply listening_newTrail.
    + apply listening_removeLast.
  - intros [] w0 Hl0. revert Hl0. apply listening_same; cbn; auto.
Qed.

Lemma listening_destroy (l : list nat) :
  keeps (listening l) destroy.
Proof.
  intros w Hl. destruct (isInitialized (this w)) eqn:Hon.
  2:{ rewrite (destroy_guard _ Hon). exact Hl. }
  pose proof (@triple_forEach Trail (listening l) (fun _ => listening l)
                (fun trail => removeChild (node (element trail)))
                (trails (this w))
                (fun t _ => @listening_removeChild l (node (element t))) w Hl)
    as Hloop.
  destruct (forEach (trails (this w))
              (fun trail => removeChild (node (element trail))) w)
    as [[] w1|e w1] eqn:Hrun.
  - rewrite (destroy_eq _ Hon Hrun). destruct Hloop as [Hw Hall].
    unfold listening. cbn [window mousemoveListeners nextFunction].
    rewrite Hw, (without_fresh Hall). split; [reflexivity|].
    revert Hall. apply Forall_impl. intros f Hf. lia.
  - rewrite (destroy_thrown _ Hon Hrun). exact Hloop.
Qed.

Lemma listening_init (l : list nat) (cfg : Config num) (w : World) :
  listening l w ->
  listening (l ++ [nextFunction (window w)]) (world_of (init cfg w)).
Proof.
  intros [Hw Hall].
  destruct (init_spec cfg w) as (w' & created & Hrun & _ & _ & _ & _ & Hml & Hnf).
  rewrite Hrun. cbn [world_of]. unfold listening. rewrite Hml, Hnf, Hw.
  assert (Hfresh : member (nextFunction (window w)) l = false).
  { destruct (member (nextFunction (window w)) l) eqn:Hm; [|reflexivity].
    apply member_In in Hm. rewrite Forall_forall in Hall.
    apply Hall in Hm. lia. }
  rewrite Hfresh. split; [reflexivity|].
  apply Forall_app. split; [|repeat constructor].
  revert Hall. apply Forall_impl. intros f Hf. lia.
Qed.

Lemma listening_step (l : list nat) (o : Op num) (w : World) :
  listening l w ->
  listening (if is_Init o then l ++ [nextFunction (window w)] else l)
    (world_of (step o w)).
Proof.
  intros Hl. destruct o as [cfg|e| |cfg| |e| ]; cbn [step is_Init].
  - now apply listening_init.
  - exact Hl.
  - pose proof (listening_animate Hl) as H. destruct (animate w); exact H.
  - pose proof (listening_updateConfig cfg Hl) as H.
    destruct (updateConfig cfg w); exact H.
  - pose proof (listening_destroy Hl) as H. destruct (destroy w); exact H.
  - rewrite dispatchMouseMove_eq. cbn [world_of].
    destruct (mousemoveListeners (window w)); exact Hl.
  - assert (H : keeps (listening l) runFrame).
    { unfold runFrame. eapply triple_bind with (Q := fun _ => listening l).
      - intros w0 Hl0. unfold takeFrameCallbacks. revert Hl0.
        apply listening_same; cbn; auto.
      - intros pending. apply triple_forEach. intros _ _.
        apply listening_animate. }
    specialize (H w Hl). destruct (runFrame w); exact H.
Qed.

Lemma listening_run (ops : list (Op num)) (l : list nat) (w : World) :
  listening l w ->
  exists l',
    listening (l ++ l') (run ops w) /\
    length l' = length (filter is_Init ops).
Proof.
  revert l w. induction ops as [|o ops IH]; intros l w Hl; cbn [run filter].
  - exists []. rewrite app_nil_r. auto.
  - apply (listening_step o) in Hl.
    destruct (IH _ _ Hl) as (l' & Hl' & Hlen).
    destruct (is_Init o).
    + exists (nextFunction (window w) :: l'). rewrite <- app_assoc in Hl'.
      split; [exact Hl'|]. cbn. now rewrite Hlen.
    + exists l'. auto.
Qed.

(** X8. After any sequence of calls and events from the fresh page, the
    window has as many [mousemove] listeners of the controller as [init]
    has been called: every [init] adds one, and nothing ever removes one. *)
Theorem listeners_count_inits (ops : list (Op num)) :
  length (mousemoveListeners (window (run ops World0))) =
  length (filter is_Init ops).
Proof.
  destruct (@listening_run ops [] World0) as (l' & [Hl _] & Hlen).
  { split; [reflexivity | constructor]. }
  rewrite Hl. exact Hlen.
Qed.

(** X9. After any sequence of calls and events from the fresh page, a
    [mousemove] is stored in [mouseX], [mouseY] if [init] has ever been
    called, whatever was destroyed since, and is ignored if it has not. *)
Theorem mousemove_tracked_since_first_init
    (ops : list (Op num)) (e : MouseEvent num) :
  exists w',
    dispatchMouseMove e (run ops World0) = Normal tt w' /\
    (mouseX (this w'), mouseY (this w')) =
      (if existsb is_Init ops
       then (clientX e, clientY e)
       else (mouseX (this (run ops World0)), mouseY (this (run ops World0)))).
Proof.
  eexists. split; [apply dispatchMouseMove_eq|].
  destruct (@listening_run ops [] World0) as (l' & [Hl _] & Hlen).
  { split; [reflexivity | constructor]. }
  rewrite Hl. cbn [app].
  destruct l' as [|f l];
    destruct (existsb is_Init ops) eqn:Hex; try reflexivity.
  - exfalso. apply existsb_exists in Hex. destruct Hex as (o & Hin & Ho).
    assert (Hf : In o (filter is_Init ops)) by (apply filter_In; auto).
    destruct (filter is_Init ops); [contradiction | discriminate].
  - exfalso. cbn in Hlen.
    destruct (filter is_Init ops) as [|o l''] eqn:Hfil; [discriminate|].
    assert (Hin : In o (filter is_Init ops)) by (rewrite Hfil; now left).
    apply filter_In in Hin. destruct Hin as [Hin Ho].
    assert (existsb is_Init ops = true) by (apply existsb_exists; eauto).
    congruence.
Qed.

(** ** What [updateConfig] does to the markers *)

Lemma resize_returns (k : Z) (bound : option Z) (w w' : World) :
  resize k bound w = Normal tt w' ->
  exists w2,
    (if greater k bound
     then times (iterations (difference (Some k) bound)) newTrail
     else times (iterations (difference bound (Some k))) removeLast) w
    = Normal tt w2 /\
    w' = mkWorld (set_maxTrails (trailLength (config (this w2))) (this w2))
           (window w2).
Proof.
  unfold resize, bind. intros H.
  destruct (greater k bound);
    match type of H with
    | match ?o with Normal _ _ => _ | Thrown _ _ => _ end = _ =>
        destruct o as [[] w2|e w2]
    end; try discriminate; injection H as <-; eauto.
Qed.

(** X10. After any sequence of calls and events from the fresh page, a
    call of [updateConfig] on the initialized controller that returns has
    restyled the markers there were and resized the array at its end only:
    it has either popped the newest markers or pushed new ones at the
    pointer, never both, and the count has changed by [k - maxTrails] for
    a marker count [k] that is given and not zero, and not at all
    otherwise. *)
Theorem updateConfig_resizes_at_the_end
    (ops : list (Op num)) (cfg : Config num) (w' : World) :
  isInitialized (this (run ops World0)) = true ->
  updateConfig cfg (run ops World0) = Normal tt w' ->
  exists m kept removed created,
    maxTrails (this (run ops World0)) = Some m /\
    map (restyle (spread (config (this (run ops World0))) cfg))
      (trails (this (run ops World0))) = kept ++ removed /\
    trails (this w') = kept ++ created /\
    Forall (fun t => x t = mouseX (this (run ops World0)) /\
                     y t = mouseY (this (run ops World0))) created /\
    (removed = [] \/ created = []) /\
    (Z.of_nat (length created) - Z.of_nat (length removed) =
     match trailLength cfg with
     | Some k => if (k =? 0)%Z then 0 else k - m
     | None => 0
     end)%Z.
Proof.
  intros Hon Hrun.
  destruct (tidy_run ops tidy_World0) as (Hs & _ & [m Hm]).
  set (w := run ops World0) in *.
  rewrite (updateConfig_eq cfg _ Hon), Hm in Hrun.
  pose proof (restyled_flagged cfg Hs) as Hr. rewrite Hon in Hr.
  set (old := map (restyle (spread (config (this w)) cfg)) (trails (this w))).
  assert (Hsame : w' = restyled cfg w ->
    exists kept removed created,
      old = kept ++ removed /\ trails (this w') = kept ++ created /\
      Forall (fun t => x t = mouseX (this w) /\ y t = mouseY (this w)) created /\
      (removed = [] \/ created = []) /\
      (Z.of_nat (length created) - Z.of_nat (length removed) = 0)%Z).
  { intros ->. exists old, [], []. rewrite app_nil_r.
    repeat split; auto. }
  exists m.
  destruct (trailLength cfg) as [k|] eqn:Hk.
  2:{ injection Hrun as <-.
      destruct Hsame as (kept & removed & created & H); [reflexivity|].
      exists kept, removed, created. tauto. }
  unfold truthy, strict_neq in Hrun.
  destruct (Z.eqb_spec k 0) as [Hz|Hnz]; cbn [negb andb] in Hrun.
  { injection Hrun as <-.
    destruct Hsame as (kept & removed & created & H); [reflexivity|].
    exists kept, removed, created. tauto. }
  destruct (Z.eqb_spec k m) as [Hkm|Hkm]; cbn [negb] in Hrun.
  { injection Hrun as <-.
    destruct Hsame as (kept & removed & created & H); [reflexivity|].
    exists kept, removed, created.
    split; [exact Hm|]. replace (k - m)%Z with 0%Z by lia. tauto. }
  apply resize_returns in Hrun. destruct Hrun as (w2 & Hloop & ->).
  unfold greater, difference in Hloop. cbn [iterations] in Hloop.
  cbn [this trails set_maxTrails].
  destruct (Z.ltb_spec m k) as [Hgt|Hle].
  - destruct (times_newTrail (Z.to_nat (k - m)) (restyled cfg w))
      as (w3 & created & Hrun3 & Hthis & Hlen & Hpos & _).
    rewrite Hrun3 in Hloop. injection Hloop as <-.
    exists old, [], created. rewrite app_nil_r, Hthis.
    split; [exact Hm|]. split; [reflexivity|]. split; [reflexivity|].
    split; [exact Hpos|]. split; [now left|]. cbn [length]. lia.
  - destruct (Z_lt_le_dec (Z.of_nat (length (trails (this w)))) (m - k))
      as [Hshort|Henough].
    + destruct (@times_removeLast_throws true (Z.to_nat (m - k))
                  (restyled cfg w) Hr) as [w3 Hthrow].
      { cbn. rewrite length_map. lia. }
      rewrite Hthrow in Hloop. discriminate.
    + destruct (@times_removeLast (Z.to_nat (m - k)) (restyled cfg w)
                  (synced_attached (proj1 Hr)))
        as (w3 & rest & removed & Hrun3 & Hsplit & Hlen & Hthis & _).
      { cbn. rewrite length_map. lia. }
      rewrite Hrun3 in Hloop. injection Hloop as <-.
      exists rest, removed, []. rewrite app_nil_r, Hthis.
      split; [exact Hm|]. split; [exact Hsplit|]. split; [reflexivity|].
      split; [constructor|]. split; [now right|]. cbn [length]. lia.
Qed.

Lemma override_absorb {A : Type} (a b : option A) :
  override (override a b) b = override a b.
Proof. destruct b; reflexivity. Qed.

Lemma override_assoc {A : Type} (a b c : option A) :
  override (override a b) c = override a (override b c).
Proof. destruct c; reflexivity. Qed.

Lemma spread_absorb (a b : Config num) : spread (spread a b) b = spread a b.
Proof. unfold spread. cbn. now rewrite !override_absorb. Qed.

(** Merging is associative: [{...{...a, ...b}, ...c}] is
    [{...a, ...{...b, ...c}}]. *)
Lemma spread_assoc (a b c : Config num) :
  spread (spread a b) c = spread a (spread b c).
Proof. unfold spread. cbn. now rewrite !override_assoc. Qed.

Lemma restyle_restyle (cfg cfg' : Config num) (t : Trail) :
  restyle cfg' (restyle cfg t) = restyle cfg' t.
Proof. reflexivity. Qed.

(** The markers [updateConfig] leaves all carry the merged configuration's
    size, colour and opacity. *)
Lemma resize_restyled (k : Z) (bound : option Z) (cfg : Config num) :
  triple
    (fun w => config (this w) = cfg /\
              Forall (fun t => restyle cfg t = t) (trails (this w)))
    (resize k bound)
    (fun _ w => config (this w) = cfg /\
                Forall (fun t => restyle cfg t = t) (trails (this w)) /\
                maxTrails (this w) = trailLength cfg)
    (fun _ _ => True).
Proof.
  unfold resize.
  set (P := fun w : World =>
    config (this w) = cfg /\
    Forall (fun t => restyle cfg t = t) (trails (this w))).
  eapply triple_bind with (Q := fun _ => P).
  - assert (Hnew : triple P newTrail (fun _ => P) (fun _ _ => True)).
    { intros w [Hc Hall]. rewrite newTrail_eq. cbv zeta. split; [exact Hc|].
      cbn [this trails set_trails]. apply Forall_app. split; [exact Hall|].
      repeat constructor. rewrite Hc. reflexivity. }
    assert (Hdel : triple P removeLast (fun _ => P) (fun _ _ => True)).
    { intros w [Hc Hall]. rewrite removeLast_eq.
      destruct (unsnoc (trails (this w))) as [[front last]|] eqn:Hu; [|exact I].
      apply unsnoc_Some in Hu. rewrite removeChild_eq. cbn [this window].
      destruct (member _ _); [|exact I]. split; [exact Hc|].
      cbn [this trails set_trails]. rewrite Hu in Hall.
      apply Forall_app in Hall. tauto. }
    destruct (greater k bound); apply triple_times; assumption.
  - intros [] w [Hc Hall]. cbn. rewrite Hc. auto.
Qed.

Lemma restyled_fixed (cfg : Config num) (w : World) :
  config (this w) = spread (config (this w)) cfg ->
  Forall (fun t => restyle (config (this w)) t = t) (trails (this w)) ->
  restyled cfg w = w.
Proof.
  intros Hc Hall. unfold restyled. rewrite <- Hc.
  replace (map (restyle (config (this w))) (trails (this w)))
    with (trails (this w)).
  - destruct w as [c b]. destruct c. reflexivity.
  - symmetry. rewrite <- (map_id (trails (this w))) at 2.
    apply map_ext_in. intros t Ht. rewrite Forall_forall in Hall. auto.
Qed.

(** X11. [updateConfig] is idempotent: in every state, when a call
    returns, the same call again returns too and changes nothing. *)
Theorem updateConfig_twice_is_once (cfg : Config num) (w w1 : World) :
  updateConfig cfg w = Normal tt w1 ->
  updateConfig cfg w1 = Normal tt w1.
Proof.
  intros Hrun. destruct (isInitialized (this w)) eqn:Hon.
  2:{ rewrite (updateConfig_guard cfg _ Hon) in Hrun. injection Hrun as <-.
      now apply updateConfig_guard. }
  rewrite (updateConfig_eq cfg _ Hon) in Hrun.
  set (cfg' := spread (config (this w)) cfg) in *.
  assert (Hr : config (this (restyled cfg w)) = cfg' /\
               Forall (fun t => restyle cfg' t = t)
                 (trails (this (restyled cfg w)))).
  { split; [reflexivity|]. cbn. apply Forall_map.
    apply Forall_forall. intros t _. reflexivity. }
  assert (Hagain : forall w0,
    isInitialized (this w0) = true ->
    config (this w0) = cfg' ->
    Forall (fun t => restyle cfg' t = t) (trails (this w0)) ->
    (forall k, trailLength cfg = Some k -> k <> 0%Z ->
               maxTrails (this w0) = Some k) ->
    updateConfig cfg w0 = Normal tt w0).
  { intros w0 Hon0 Hc0 Hall0 Hmax0.
    rewrite (updateConfig_eq cfg _ Hon0).
    assert (Hfix : restyled cfg w0 = w0).
    { apply restyled_fixed.
      - rewrite Hc0. unfold cfg'. now rewrite spread_absorb.
      - rewrite Hc0. exact Hall0. }
    rewrite Hfix.
    destruct (trailLength cfg) as [k|]; [|reflexivity].
    unfold truthy, strict_neq.
    destruct (Z.eqb_spec k 0) as [Hz|Hnz]; [reflexivity|].
    rewrite (Hmax0 k eq_refl Hnz), Z.eqb_refl. reflexivity. }
  destruct (trailLength cfg) as [k|] eqn:Hk.
  2:{ injection Hrun as <-. apply Hagain; try tauto. discriminate. }
  unfold truthy, strict_neq in Hrun.
  destruct (Z.eqb_spec k 0) as [Hz|Hnz]; cbn [negb andb] in Hrun.
  { injection Hrun as <-. apply Hagain; try tauto.
    intros k' Hk' Hnz'. congruence. }
  destruct (maxTrails (this w)) as [m|] eqn:Hm.
  - destruct (Z.eqb_spec k m) as [Hkm|Hkm]; cbn [negb] in Hrun.
    + injection Hrun as <-. apply Hagain; try tauto.
      intros k' Hk' _. cbn. rewrite Hm. congruence.
    + pose proof (@resize_restyled k (Some m) cfg' (restyled cfg w) Hr) as H.
      rewrite Hrun in H. destruct H as (Hc1 & Hall1 & Hm1).
      apply Hagain; auto.
      * apply resize_returns in Hrun. destruct Hrun as (w2 & Hloop & ->).
        cbn [this isInitialized set_maxTrails].
        assert (Hflag : keeps (fun w0 : World => isInitialized (this w0) = true)
                  (if greater k (Some m)
                   then times (iterations (difference (Some k) (Some m))) newTrail
                   else times (iterations (difference (Some m) (Some k))) removeLast)).
        { destruct (greater k (Some m)); apply triple_times.
          - intros w0 H0. rewrite newTrail_eq. exact H0.
          - intros w0 H0. rewrite removeLast_eq.
            destruct (unsnoc (trails (this w0))) as [[front last]|]; [|exact H0].
            rewrite removeChild_eq. destruct (member _ _); exact H0. }
        specialize (Hflag (restyled cfg w) Hon). rewrite Hloop in Hflag.
        exact Hflag.
      * intros k' Hk' _. rewrite Hm1. unfold cfg'. cbn. rewrite Hk. cbn. congruence.
  - pose proof (@resize_restyled k None cfg' (restyled cfg w) Hr) as H.
    rewrite Hrun in H. destruct H as (Hc1 & Hall1 & Hm1).
    apply Hagain; auto.
    + apply resize_returns in Hrun. destruct Hrun as (w2 & Hloop & ->).
      cbn in Hloop. injection Hloop as <-. exact Hon.
    + intros k' Hk' _. rewrite Hm1. unfold cfg'. cbn. rewrite Hk. cbn. congruence.
Qed.

(** X12. Two calls of [updateConfig] that give no marker count do what
    one call with the merged configuration does, in every state. *)
Theorem updateConfig_appearance_merges (cfg1 cfg2 : Config num) (w : World) :
  trailLength cfg1 = None ->
  trailLength cfg2 = None ->
  updateConfig cfg2 (world_of (updateConfig cfg1 w)) =
  updateConfig (spread cfg1 cfg2) w.
Proof.
  intros H1 H2. destruct (isInitialized (this w)) eqn:Hon.
  2:{ rewrite (updateConfig_guard cfg1 _ Hon). cbn [world_of].
      rewrite (updateConfig_guard cfg2 _ Hon).
      now rewrite (updateConfig_guard (spread cfg1 cfg2) _ Hon). }
  assert (H12 : trailLength (spread cfg1 cfg2) = None).
  { cbn. rewrite H1, H2. reflexivity. }
  rewrite (updateConfig_eq cfg1 _ Hon), H1. cbn [world_of].
  rewrite (updateConfig_eq (spread cfg1 cfg2) _ Hon), H12.
  rewrite updateConfig_eq by exact Hon. rewrite H2.
  f_equal. unfold restyled.
  cbn [this window config trails set_config set_trails].
  rewrite spread_assoc, map_map. reflexivity.
Qed.

(** ** One frame loop *)

(** What the frame loop is made of: the flag, the stored handle, the
    pending requests. *)
#[local] Abbreviation loop_is b a fs :=
  (fun w : World =>
     isInitialized (this w) = b /\ animationFrame (this w) = a /\
     frameCallbacks (window w) = fs).

Lemma flag_cases (w : World) :
  {isInitialized (this w) = true} + {isInitialized (this w) = false}.
Proof. destruct (isInitialized (this w)); auto. Qed.

Lemma loop_newTrail b a fs : keeps (loop_is b a fs) newTrail.
Proof. intros w H. rewrite newTrail_eq. exact H. Qed.

Lemma loop_removeLast b a fs : keeps (loop_is b a fs) removeLast.
Proof.
  intros w H. rewrite removeLast_eq.
  destruct (unsnoc (trails (this w))) as [[front last]|]; [|exact H].
  rewrite removeChild_eq. destruct (member _ _); exact H.
Qed.

Lemma loop_updateConfig b a fs (cfg : Config num) :
  keeps (loop_is b a fs) (updateConfig cfg).
Proof.
  intros w H. destruct (flag_cases w) as [Hon|Hon].
  2:{ rewrite (updateConfig_guard cfg _ Hon). exact H. }
  rewrite (updateConfig_eq cfg _ Hon).
  assert (Hr : loop_is b a fs (restyled cfg w)) by exact H.
  destruct (trailLength cfg) as [k|]; [|exact Hr].
  destruct (truthy k && strict_neq k (maxTrails (this w))); [|exact Hr].
  revert Hr. generalize (restyled cfg w). unfold resize.
  eapply triple_bind with (Q := fun _ => loop_is b a fs).
  - destruct (greater k (maxTrails (this w))); apply triple_times.
    + apply loop_newTrail.
    + apply loop_removeLast.
  - intros [] w0 H0. exact H0.
Qed.

Lemma looping_animate_once (w : World) (h f : nat) :
  isInitialized (this w) = true ->
  frameCallbacks (window w) = [(h, f)] ->
  looping (world_of (runFrame w)).
Proof.
  intros Hon Hfs. unfold runFrame, bind, takeFrameCallbacks. rewrite Hfs.
  cbn [forEach]. unfold bind. rewrite animate_eq. cbn.
  left. split; [exact Hon|]. do 2 eexists. split; reflexivity.
Qed.

Lemma looping_step (o : Op num) (w : World) :
  tidy w -> scripted w o -> looping w -> looping (world_of (step o w)).
Proof.
  intros Ht Hok Hl. destruct o as [cfg|e| |cfg| |e| ]; cbn [step scripted] in *.
  - destruct Hl as [[Hon _]|(_ & Ha & Hfs)]; [congruence|].
    rewrite init_eq. unfold bind.
    destruct (times_newTrail (iterations (trailLength (spread defaultOptions cfg)))
                (init_start cfg w))
      as (w2 & created & -> & _ & _ & _ & _ & (_ & _ & Hfs2 & _)).
    rewrite init_finish_eq. cbn. left. split; [reflexivity|].
    cbn in Hfs2. rewrite Hfs2, Hfs. do 2 eexists. split; reflexivity.
  - exact Hl.
  - contradiction.
  - assert (H : forall b a fs, loop_is b a fs w ->
                loop_is b a fs (world_of (updateConfig cfg w))).
    { intros b a fs H. pose proof (loop_updateConfig cfg H) as H'.
      destruct (updateConfig cfg w); exact H'. }
    destruct Hl as [(Hon & h & f & Ha & Hfs)|(Hoff & Ha & Hfs)].
    + destruct (H true (Some h) [(h, f)]) as (Hon' & Ha' & Hfs'); [auto|].
      left. eauto.
    + destruct (H false None []) as (Hon' & Ha' & Hfs'); [auto|].
      right. auto.
  - destruct Hl as [(Hon & h & f & Ha & Hfs)|(Hoff & Ha & Hfs)].
    + destruct Ht as (Hs & _).
      destruct (forEach_removeChild (synced_attached Hs))
        as (w1 & Hloop & Hthis & _ & _ & _ & Hfc & _).
      rewrite (destroy_eq _ Hon Hloop). cbn [world_of]. right.
      cbn. rewrite Hthis, Ha, Hfc, Hfs. cbn. rewrite Nat.eqb_refl. auto.
    + rewrite (destroy_guard _ Hoff). right. auto.
  - rewrite dispatchMouseMove_eq. cbn [world_of].
    destruct (mousemoveListeners (window w)); exact Hl.
  - destruct Hl as [(Hon & h & f & Ha & Hfs)|(Hoff & Ha & Hfs)].
    + now apply (@looping_animate_once w h f).
    + unfold runFrame, bind, takeFrameCallbacks. rewrite Hfs. cbn.
      right. auto.
Qed.

(** X13. Along every sequence of calls and events from the fresh page in
    which [init] is only called while the controller is not initialized and
    the page does not call [animate] itself, there is exactly one frame
    request pending while the controller is initialized, the one whose
    handle [animationFrame] holds, and none while it is not: [destroy]
    stops the loop. *)
Theorem one_frame_loop (ops : list (Op num)) :
  along scripted ops World0 ->
  looping (run ops World0).
Proof.
  assert (Hgen : forall w, tidy w -> looping w -> along scripted ops w ->
                           looping (run ops w)).
  { induction ops as [|o ops IH]; intros w Ht Hl Hal; cbn in *; [exact Hl|].
    destruct Hal as [Hok Hrest]. apply IH; [| |exact Hrest].
    - pose proof (tidy_step o Ht) as H. destruct (step o w); cbn; tauto.
    - now apply looping_step. }
  apply Hgen; [apply tidy_World0|].
  right. repeat split.
Qed.

(** ** The markers look as the configuration says *)

#[local] Abbreviation groomed :=
  (fun w : World => Forall (dressed (config (this w))) (trails (this w))).

Lemma dressed_ease (cfg : Config num) (c : Cursory num) (t : Trail) :
  dressed cfg t -> dressed cfg (ease c t).
Proof.
  intros [Hcl Hst]. split; [exact Hcl|].
  cbn [ease element style x y]. rewrite Hst. reflexivity.
Qed.

Lemma dressed_restyle (cfg cfg' : Config num) (t : Trail) :
  dressed cfg t -> dressed cfg' (restyle cfg' t).
Proof.
  intros [Hcl Hst]. split; [exact Hcl|].
  cbn [restyle element style x y]. rewrite Hst. reflexivity.
Qed.

Lemma groomed_newTrail : keeps groomed newTrail.
Proof.
  intros w H. rewrite newTrail_eq. cbv zeta.
  cbn [this config trails set_trails]. apply Forall_app. split; [exact H|].
  repeat constructor.
Qed.

Lemma groomed_removeLast : keeps groomed removeLast.
Proof.
  intros w H. rewrite removeLast_eq.
  destruct (unsnoc (trails (this w))) as [[front last]|] eqn:Hu; [|exact H].
  apply unsnoc_Some in Hu. rewrite removeChild_eq. cbn [this window].
  assert (Hfront : Forall (dressed (config (this w))) front).
  { rewrite Hu in H. apply Forall_app in H. tauto. }
  destruct (member _ _); exact Hfront.
Qed.

Lemma groomed_animate : keeps groomed animate.
Proof.
  intros w H. rewrite animate_eq.
  cbn [this config trails set_animationFrame set_trails].
  apply Forall_map. revert H. apply Forall_impl. intros t.
  apply dressed_ease.
Qed.

Lemma groomed_updateConfig (cfg : Config num) : keeps groomed (updateConfig cfg).
Proof.
  intros w H. destruct (flag_cases w) as [Hon|Hon].
  2:{ rewrite (updateConfig_guard cfg _ Hon). exact H. }
  rewrite (updateConfig_eq cfg _ Hon).
  assert (Hr : groomed (restyled cfg w)).
  { cbn [restyled this config trails set_config set_trails].
    apply Forall_map. revert H. apply Forall_impl. intros t.
    apply dressed_restyle. }
  destruct (trailLength cfg) as [k|]; [|exact Hr].
  destruct (truthy k && strict_neq k (maxTrails (this w))); [|exact Hr].
  revert Hr. generalize (restyled cfg w). unfold resize.
  eapply triple_bind with (Q := fun _ => groomed).
  - destruct (greater k (maxTrails (this w))); apply triple_times.
    + apply groomed_newTrail.
    + apply groomed_removeLast.
  - intros [] w0 H0. exact H0.
Qed.

Lemma groomed_step (o : Op num) (w : World) :
  tidy w -> orderly w o -> groomed w -> groomed (world_of (step o w)).
Proof.
  intros Ht Hok Hg. destruct o as [cfg|e| |cfg| |e| ]; cbn [step orderly] in *.
  - destruct Ht as (_ & Hoff & _). specialize (Hoff Hok).
    assert (Hstart : groomed (init_start cfg w)).
    { cbn. rewrite Hoff. constructor. }
    rewrite init_eq. unfold bind.
    pose proof (@triple_times groomed (fun _ => groomed) newTrail
                  (iterations (trailLength (spread defaultOptions cfg)))
                  groomed_newTrail (init_start cfg w) Hstart) as Hloop.
    destruct (times _ newTrail (init_start cfg w)) as [[] w2|e w2];
      [|exact Hloop].
    rewrite init_finish_eq.
    cbn [world_of this config trails set_isInitialized set_animationFrame
         set_trails].
    apply Forall_map. revert Hloop. apply Forall_impl. intros t.
    apply dressed_ease.
  - exact Hg.
  - pose proof (groomed_animate Hg) as H. destruct (animate w); exact H.
  - pose proof (groomed_updateConfig cfg Hg) as H.
    destruct (updateConfig cfg w); exact H.
  - destruct (destroy_tidy Ht) as (w' & -> & _ & _ & Hnil & _).
    cbn [world_of]. rewrite Hnil. constructor.
  - rewrite dispatchMouseMove_eq. cbn [world_of].
    destruct (mousemoveListeners (window w)); exact Hg.
  - assert (H : keeps groomed runFrame).
    { unfold runFrame. eapply triple_bind with (Q := fun _ => groomed).
      - intros w0 H0. exact H0.
      - intros pending. apply triple_forEach. intros _ _.
        apply groomed_animate. }
    specialize (H w Hg). destruct (runFrame w); exact H.
Qed.

(** X14. Along every sequence of calls and events from the fresh page in
    which [init] is only called while the controller is not initialized,
    every marker's [div] shows the state: it has the class
    [cursory-trail], the size, colour and opacity of the stored
    configuration, [position: fixed], [pointer-events: none],
    [border-radius: 50%], and it is translated to the marker's [(x, y)]. *)
Theorem markers_show_the_state (ops : list (Op num)) :
  along orderly ops World0 ->
  Forall (dressed (config (this (run ops World0))))
    (trails (this (run ops World0))).
Proof.
  assert (Hgen : forall w, tidy w -> groomed w -> along orderly ops w ->
                           groomed (run ops w)).
  { induction ops as [|o ops IH]; intros w Ht Hg Hal; cbn in *; [exact Hg|].
    destruct Hal as [Hok Hrest]. apply IH; [| |exact Hrest].
    - pose proof (tidy_step o Ht) as H. destruct (step o w); cbn; tauto.
    - now apply groomed_step. }
  apply Hgen; [apply tidy_World0|]. constructor.
Qed.

(** ** Several ticks *)

Lemma ease_same (c c' : Cursory num) (t : Trail) :
  mouseX c' = mouseX c ->
  mouseY c' = mouseY c ->
  config c' = config c ->
  ease c' t = ease c t.
Proof. unfold ease. intros -> -> ->. reflexivity. Qed.

Lemma iter_ease_comm (c : Cursory num) (n : nat) (t : Trail) :
  Nat.iter n (ease c) (ease c t) = ease c (Nat.iter n (ease c) t).
Proof. change (Nat.iter n (ease c) (ease c t) = Nat.iter (S n) (ease c) t). now rewrite Nat.iter_succ_r. Qed.

(** [n] calls of [animate] in a row return, move every marker [n] times
    towards the same pointer with the same configuration, and touch
    nothing else of the controller but the handle of the frame request. *)
Lemma times_animate (n : nat) (w : World) :
  exists w',
    times n animate w = Normal tt w' /\
    trails (this w') = map (Nat.iter n (ease (this w))) (trails (this w)) /\
    config (this w') = config (this w) /\
    mouseX (this w') = mouseX (this w) /\
    mouseY (this w') = mouseY (this w) /\
    maxTrails (this w') = maxTrails (this w) /\
    isInitialized (this w') = isInitialized (this w).
Proof.
  revert w. induction n as [|n IH]; intros w.
  - exists w. cbn. rewrite map_id. repeat split.
  - cbn [times]. unfold bind. rewrite animate_eq.
    match goal with |- context [times n animate ?w1] =>
      destruct (IH w1) as (w' & Hrun & Htr & Hc & Hx & Hy & Hm & Hi) end.
    exists w'. split; [exact Hrun|].
    cbn [this trails config mouseX mouseY maxTrails isInitialized
         set_animationFrame set_trails] in Htr, Hc, Hx, Hy, Hm, Hi.
    repeat split; try assumption.
    rewrite Htr, map_map. apply map_ext. intros t.
    rewrite Nat.iter_succ_r. reflexivity.
Qed.

(** ** Starting again *)

(** X19. After any sequence of calls and events whatsoever from the fresh
    page, [destroy] followed by [init(cfg)] starts the trail afresh: both
    return, and the controller is initialized with the merged
    configuration, [maxTrails] its marker count, as many markers as the
    loop of [init] runs for that count (none for a negative one) and no
    marker or [div] left over from before. *)
Theorem destroy_then_init_restarts (ops : list (Op num)) (cfg : Config num) :
  exists w1 w2,
    destroy (run ops World0) = Normal tt w1 /\
    init cfg w1 = Normal tt w2 /\
    length (trails (this w2)) =
      iterations (trailLength (spread defaultOptions cfg)) /\
    body (window w2) = nodes (trails (this w2)) /\
    config (this w2) = spread defaultOptions cfg /\
    maxTrails (this w2) = trailLength (spread defaultOptions cfg) /\
    isInitialized (this w2) = true.
Proof.
  destruct (destroy_tidy (tidy_run ops tidy_World0))
    as (w1 & Hd & Ht1 & Hoff & Hnil & Hb).
  destruct (init_spec cfg w1) as (w2 & created & Hi & Hlen & _ & Hthis & _).
  exists w1, w2. split; [exact Hd|]. split; [exact Hi|].
  pose proof (tidy_init cfg Ht1) as Ht2.
  rewrite Hi in Ht2. destruct Ht2 as ((Hbody & _) & _).
  split; [|split; [exact Hbody|]].
  - rewrite Hthis. cbn [trails]. rewrite Hnil, length_map. exact Hlen.
  - rewrite Hthis. repeat split.
Qed.
End Properties.

(** * The controller on binary64 numbers *)

Section Binary64.

(** ** A marker created at the pointer stays there on the first tick *)

Lemma Prim2SF_finite (p : float) :
  is_finite p = true ->
  (exists s, Prim2SF p = S754_zero s) \/
  (exists s m e, Prim2SF p = S754_finite s m e).
Proof.
  unfold is_finite. rewrite negb_true_iff, orb_false_iff. intros [Hnan Hinf].
  unfold Prim2SF. rewrite Hnan, Hinf.
  destruct (is_zero p); [left; eauto|].
  destruct (Z.frexp p) as [r exp].
  destruct (shr_fexp prec emax (Uint63Axioms.to_Z (normfr_mantissa r))
              (exp - prec) loc_Exact) as [shr e'].
  destruct (shr_m shr); eauto.
Qed.

Lemma SF64sub_diag (v : spec_float) :
  (exists s, v = S754_zero s) \/ (exists s m e, v = S754_finite s m e) ->
  SF64sub v v = S754_zero false.
Proof.
  intros [[s ->]|[s [m [e ->]]]].
  - destruct s; reflexivity.
  - unfold SF64sub, SFsub. rewrite Z.sub_diag. reflexivity.
Qed.

Lemma SF64mul_zero (v : spec_float) :
  (exists s, v = S754_zero s) \/ (exists s m e, v = S754_finite s m e) ->
  exists s, SF64mul (S754_zero false) v = S754_zero s.
Proof.
  intros [[s ->]|[s [m [e ->]]]]; eexists; reflexivity.
Qed.

Lemma SFeqb_refl (v : spec_float) :
  (exists s, v = S754_zero s) \/ (exists s m e, v = S754_finite s m e) ->
  SFeqb v v = true.
Proof.
  intros [[s ->]|[s [m [e ->]]]]; [reflexivity|].
  unfold SFeqb, SFcompare.
  destruct s; rewrite Z.compare_refl, Pos.compare_cont_refl; reflexivity.
Qed.

(** [p + (p - p) * f] for finite [p] and [f]: equal to [p] as JavaScript's
    [===] compares numbers, and the very same value unless [p] is the
    negative zero (then the sum may be the positive zero). *)
Lemma ease_at_rest (p f : float) :
  is_finite p = true ->
  is_finite f = true ->
  (p + (p - p) * f =? p)%float = true /\
  (p <> neg_zero -> (p + (p - p) * f)%float = p).
Proof.
  intros Hp Hf.
  pose proof (Prim2SF_finite p Hp) as Hcp.
  pose proof (Prim2SF_finite f Hf) as Hcf.
  destruct (SF64mul_zero Hcf) as [sz Hmul].
  assert (Hsum : Prim2SF (p + (p - p) * f)%float =
                 SF64add (Prim2SF p) (S754_zero sz)).
  { rewrite add_spec, mul_spec, sub_spec, (SF64sub_diag Hcp), Hmul.
    reflexivity. }
  split.
  - rewrite eqb_spec, Hsum.
    destruct Hcp as [[s Hs]|[s [m [e Hs]]]]; rewrite Hs.
    + destruct s, sz; reflexivity.
    + apply (@SFeqb_refl (S754_finite s m e)). right. eauto.
  - intros Hnz. apply Prim2SF_inj. rewrite Hsum.
    destruct Hcp as [[s Hs]|[s [m [e Hs]]]]; rewrite Hs.
    + destruct s.
      * exfalso. apply Hnz. rewrite <- (SF2Prim_Prim2SF p), Hs. reflexivity.
      * destruct sz; reflexivity.
    + reflexivity.
Qed.

(** Every number of the range 0-1 that the interface states for
    [followSpeed] and [opacity] is finite. *)
Lemma unit_interval_finite (f : float) :
  (0 <=? f)%float = true -> (f <=? 1)%float = true -> is_finite f = true.
Proof.
  rewrite !leb_spec. unfold is_finite, is_nan, is_infinity.
  rewrite !eqb_spec, abs_spec. intros H0 H1.
  destruct (Prim2SF f) as [s|s| |s m e] eqn:Hf.
  - reflexivity.
  - destruct s; vm_compute in H0, H1; discriminate.
  - vm_compute in H0. discriminate.
  - rewrite (@SFeqb_refl (S754_finite s m e)) by (right; eauto).
    reflexivity.
Qed.

(** C5. [init], given any configuration whose marker count (10 when the
    key is absent) is a non-negative integer and whose easing factor (0.2
    when absent) is a finite number, called while the pointer's stored
    coordinates are finite, returns after having pushed exactly that many
    markers behind those the array held; each new marker sits at the
    pointer's stored position: equal to it as numbers, and the same value
    unless that coordinate is the negative zero.  (Every [followSpeed] of
    the stated range 0-1 is finite: [unit_interval_finite].)  On the fresh
    page the array was empty and the pointer is at (0, 0), so all markers
    are the new ones, at (0, 0). *)
Theorem init_creates_trailLength_markers (cfg : Config float) (w : World float) :
  let k := match trailLength cfg with Some k => k | None => 10%Z end in
  let f := match followSpeed cfg with Some f => f | None => lit_0_2 end in
  (0 <= k)%Z ->
  is_finite f = true ->
  is_finite (mouseX (this w)) = true ->
  is_finite (mouseY (this w)) = true ->
  exists w' old created,
    init cfg w = Normal tt w' /\
    trails (this w') = old ++ created /\
    length old = length (trails (this w)) /\
    Z.of_nat (length created) = k /\
    Forall
      (fun t =>
         (x t =? mouseX (this w))%float = true /\
         (y t =? mouseY (this w))%float = true /\
         (mouseX (this w) <> neg_zero -> x t = mouseX (this w)) /\
         (mouseY (this w) <> neg_zero -> y t = mouseY (this w)))
      created /\
    maxTrails (this w') = Some k /\
    isInitialized (this w') = true /\
    (w = World0 ->
     old = [] /\ Forall (fun t => x t = 0%float /\ y t = 0%float) created).
Proof.
  intros k f Hk Hf Hmx Hmy.
  destruct (init_spec cfg w) as (w' & created & Hrun & Hlen & Hpos & Hthis & _).
  assert (Hcfgf : to_number (followSpeed (spread defaultOptions cfg)) = f).
  { cbn. unfold f. destruct (followSpeed cfg); reflexivity. }
  assert (Hcreated :
    Forall
      (fun t =>
         (x t =? mouseX (this w))%float = true /\
         (y t =? mouseY (this w))%float = true /\
         (mouseX (this w) <> neg_zero -> x t = mouseX (this w)) /\
         (mouseY (this w) <> neg_zero -> y t = mouseY (this w)))
      (map (ease (set_config (spread defaultOptions cfg) (this w))) created)).
  { apply Forall_map. revert Hpos. apply Forall_impl.
    intros t [Hx Hy].
    cbn [ease x y set_config mouseX mouseY config].
    rewrite Hcfgf, Hx, Hy.
    destruct (ease_at_rest (mouseX (this w)) f Hmx Hf) as [Hx1 Hx2].
    destruct (ease_at_rest (mouseY (this w)) f Hmy Hf) as [Hy1 Hy2].
    auto. }
  exists w',
    (map (ease (set_config (spread defaultOptions cfg) (this w))) (trails (this w))),
    (map (ease (set_config (spread defaultOptions cfg) (this w))) created).
  split; [exact Hrun|]. rewrite Hthis. cbn [trails maxTrails isInitialized].
  split; [apply map_app|]. split; [apply length_map|].
  split.
  { rewrite length_map, Hlen, trailLength_defaulted. cbn [iterations].
    fold k. lia. }
  split; [exact Hcreated|].
  split; [rewrite trailLength_defaulted; reflexivity|].
  split; [reflexivity|].
  intros ->. split; [reflexivity|].
  revert Hcreated. apply Forall_impl. intros t (_ & _ & Hx & Hy).
  split; [apply Hx | apply Hy]; cbn; discriminate.
Qed.

Lemma init_creates_trailLength_markers_witness :
  exists w' old created,
    init (mkConfig None (Some 3%Z) None None None None) World0 = Normal tt w' /\
    trails (this w') = old ++ created /\
    length old = 0 /\
    Z.of_nat (length created) = 3%Z /\
    Forall
      (fun t =>
         (x t =? 0)%float = true /\
         (y t =? 0)%float = true /\
         (0%float <> neg_zero -> x t = 0%float) /\
         (0%float <> neg_zero -> y t = 0%float))
      created /\
    maxTrails (this w') = Some 3%Z /\
    isInitialized (this w') = true /\
    (@World0 float _ = World0 ->
     old = [] /\ Forall (fun t => x t = 0%float /\ y t = 0%float) created).
Proof.
  refine (@init_creates_trailLength_markers
            (mkConfig None (Some 3%Z) None None None None) World0 _ _ _ _).
  - cbn. lia.
  - reflexivity.
  - reflexivity.
  - reflexivity.
Defined.

(** ** Runs on the fresh page *)

(** C1. [updateConfig({ trailLength: 0 })] does not leave zero markers: in
    every state it returns with as many markers as before and the same
    [maxTrails], and after [init({})] on the fresh page the ten markers are
    all still there, while the stored configuration says [trailLength: 0]. *)
Theorem updateConfig_trailLength_zero_keeps_markers :
  (forall w : World float,
     exists w',
       updateConfig (only_trailLength 0) w = Normal tt w' /\
       length (trails (this w')) = length (trails (this w)) /\
       maxTrails (this w') = maxTrails (this w)) /\
  (let w := run [Init empty_config] World0 in
   let w' := run [UpdateConfig (only_trailLength 0)] w in
   isInitialized (this w) = true /\
   length (trails (this w)) = 10 /\
   length (trails (this w')) = 10 /\
   trailLength (config (this w')) = Some 0%Z /\
   maxTrails (this w') = Some 10%Z).
Proof.
  split.
  - intros w. apply updateConfig_zero_length. reflexivity.
  - vm_compute. repeat split; reflexivity.
Qed.

(** C2. [destroy] does not detach the [mousemove] listener: after
    [init({})] and [destroy()] on the fresh page the listener that [init]
    registered is still in the window's list, and a later [mousemove] at
    (5, 7) is stored in [mouseX], [mouseY].  (No marker moves: there is
    none left.) *)
Theorem destroy_leaves_mousemove_listener :
  let w0 := run [Init empty_config] (@World0 float _) in
  let w := run [Destroy] w0 in
  let w' := run [MouseMove (mkMouseEvent 5 7)%float; Frame] w in
  mousemoveListeners (window w0) = [0] /\
  isInitialized (this w) = false /\
  mousemoveListeners (window w) = [0] /\
  (mouseX (this w), mouseY (this w)) = (0, 0)%float /\
  (mouseX (this w'), mouseY (this w')) = (5, 7)%float /\
  trails (this w') = [].
Proof.
  vm_compute. repeat split; reflexivity.
Qed.

(** C3. A call of [animate] returns and moves every marker by the easing
    formula, [pos + (target - pos) * followSpeed] in each coordinate, in
    whatever arithmetic the numbers have.  On binary64: after
    [init({ trailLength: 3, followSpeed: 0.5 })] with the pointer at (0, 0)
    and a [mousemove] to (100, 0), one frame puts the three markers at
    x = 50 and the next frame at x = 75. *)
Theorem animate_eases_every_marker :
  (forall (num : Type) (JSN : JSNumber num) (w : World num),
     exists w',
       animate w = Normal tt w' /\
       Forall2
         (fun t t' =>
            x t' = add (x t) (mul (sub (mouseX (this w)) (x t))
                                (to_number (followSpeed (config (this w))))) /\
            y t' = add (y t) (mul (sub (mouseY (this w)) (y t))
                                (to_number (followSpeed (config (this w))))) /\
            style_transform (style (element t')) = (x t', y t') /\
            node (element t') = node (element t))
         (trails (this w)) (trails (this w'))) /\
  (let cfg := mkConfig None (Some 3%Z) None None None (Some 0.5%float) in
   let w0 := run [Init cfg] World0 in
   let w1 := run [MouseMove (mkMouseEvent 100 0)%float; Frame] w0 in
   let w2 := run [Frame] w1 in
   (mouseX (this w0), mouseY (this w0)) = (0, 0)%float /\
   length (trails (this w0)) = 3 /\
   Forall (fun t => x t = 0%float) (trails (this w0)) /\
   length (trails (this w1)) = 3 /\
   Forall (fun t => x t = 50%float) (trails (this w1)) /\
   length (trails (this w2)) = 3 /\
   Forall (fun t => x t = 75%float) (trails (this w2))).
Proof.
  split.
  - intros num JSN w. apply animate_eases.
  - vm_compute. repeat split; repeat constructor.
Qed.

(** ** The hypotheses of the general statements are met *)

Lemma updateConfig_uninitialized_noop_witness :
  updateConfig (only_trailLength 3) World0 = Normal tt World0.
Proof.
  apply updateConfig_uninitialized_noop. reflexivity.
Defined.

Lemma initialized_trails_length_is_maxTrails_witness :
  let ops := [Init empty_config; MouseMove (mkMouseEvent 100 0)%float; Frame;
              UpdateConfig (only_trailLength 3); UpdateConfig (only_trailLength 12)] in
  maxTrails (this (run ops World0)) =
  Some (Z.of_nat (length (trails (this (run ops World0))))).
Proof.
  apply initialized_trails_length_is_maxTrails.
  - vm_compute. repeat split; discriminate.
  - reflexivity.
Defined.

Lemma trailSpeed_never_read_witness :
  let slow := mkConfig None (Some 3%Z) (Some 0.25%float) None None None in
  let fast := mkConfig None (Some 3%Z) (Some 0.75%float) None None None in
  let events := [MouseMove (mkMouseEvent 100 0)%float; Frame; Frame] in
  trails (this (run (Init slow :: events) World0)) =
  trails (this (run (Init fast :: events) World0)).
Proof.
  apply trailSpeed_never_read; reflexivity.
Defined.

Lemma destroy_never_detaches_witness :
  let ops := [Init empty_config; MouseMove (mkMouseEvent 100 0)%float; Frame;
              UpdateConfig (only_trailLength 3)] in
  exists w' w'',
    destroy (run ops World0) = Normal tt w' /\
    isInitialized (this w') = false /\
    trails (this w') = [] /\
    mousemoveListeners (window w') = mousemoveListeners (window (run ops World0)) /\
    mousemoveListeners (window w') <> [] /\
    dispatchMouseMove (mkMouseEvent 5 7)%float w' = Normal tt w'' /\
    mouseX (this w'') = 5%float /\
    mouseY (this w'') = 7%float.
Proof.
  cbv zeta.
  refine (@destroy_never_detaches float _ _ (mkMouseEvent 5 7)%float _ _).
  - vm_compute. repeat split; discriminate.
  - reflexivity.
Defined.

Lemma updateConfig_positive_trailLength_witness :
  exists w',
    updateConfig (only_trailLength 1) (run [Init empty_config] World0)
    = Normal tt w' /\
    Z.of_nat (length (trails (this w'))) = 1%Z /\
    maxTrails (this w') = Some 1%Z.
Proof.
  refine (@updateConfig_positive_trailLength float _ [Init empty_config]
            (only_trailLength 1) 1 _ _ _ _).
  - vm_compute. repeat split; discriminate.
  - reflexivity.
  - reflexivity.
  - lia.
Defined.

(** ** Rounding *)

(** On binary64 a step can round away although [followSpeed] is not
    zero: with the default 0.2, a marker at x = 2^53 under a pointer at
    x = 2^53 + 2 is told to go to 2^53 + 0.4, which rounds to 2^53. *)
Lemma binary64_step_rounds_away :
  let w := run [TrackMouse (mkMouseEvent 9007199254740992 0)%float;
                Init (only_trailLength 1);
                MouseMove (mkMouseEvent 9007199254740994 0)%float] World0 in
  let w' := run [Frame] w in
  followSpeed (config (this w)) = Some 0x1.999999999999ap-3%float /\
  (mouseX (this w'), mouseY (this w')) = (9007199254740994, 0)%float /\
  map (fun t => (x t, y t)) (trails (this w)) = [(9007199254740992, 0)%float] /\
  map (fun t => (x t, y t)) (trails (this w')) = [(9007199254740992, 0)%float].
Proof.
  vm_compute. repeat split; reflexivity.
Qed.

Lemma admissible_calls_return_witness :
  exists w',
    step (UpdateConfig (only_trailLength 2))
      (run [Init empty_config; Frame] World0) = Normal tt w'.
Proof.
  refine (@admissible_calls_return float _ [Init empty_config; Frame]
            (UpdateConfig (only_trailLength 2)) _).
  vm_compute. repeat split; discriminate.
Defined.

End Binary64.

(** * Ticks of the animation on binary64 numbers *)

Section Binary64Ticks.

Lemma Forall2_map_when {A B : Type} (g : A -> B) (P : A -> Prop)
    (Q : A -> B -> Prop) (l : list A) :
  Forall P l -> (forall a, P a -> Q a (g a)) -> Forall2 Q l (map g l).
Proof.
  intros Hl Hg. induction Hl; simpl; constructor; auto.
Qed.

Lemma SFeqb_finite (u v : spec_float) :
  SFeqb u v = true ->
  (exists s, v = S754_zero s) \/ (exists s m e, v = S754_finite s m e) ->
  ((exists s, u = S754_zero s) /\ (exists s, v = S754_zero s)) \/ u = v.
Proof.
  intros Heq [[s ->]|[s [m [e ->]]]].
  - destruct u as [[|]|[|]| |[|] mu eu]; try discriminate; left; eauto.
  - right. destruct u as [[|]|[|]| |su mu eu];
      try (destruct s; discriminate).
    unfold SFeqb, SFcompare in Heq.
    destruct su, s; try discriminate;
      destruct (Z.compare eu e) eqn:He; try discriminate;
      destruct (Pos.compare_cont Eq mu m) eqn:Hm; try discriminate;
      apply Z.compare_eq in He; apply Pos.compare_eq in Hm;
      subst; reflexivity.
Qed.

(** A coordinate that equals the pointer's, as [===] compares numbers,
    still equals it after the step [x + (p - x) * f]. *)
Lemma ease_holds (v p f : float) :
  is_finite p = true ->
  is_finite f = true ->
  (v =? p)%float = true ->
  (v + (p - v) * f =? p)%float = true.
Proof.
  intros Hp Hf Heq.
  pose proof (Prim2SF_finite p Hp) as Hcp.
  rewrite eqb_spec in Heq.
  destruct (SFeqb_finite _ Heq Hcp) as [[[sv Hv] [sp Hsp]]|Hsame].
  - rewrite eqb_spec, add_spec, mul_spec, sub_spec, Hv, Hsp.
    destruct (Prim2SF_finite f Hf) as [[s ->]|[s [m [e ->]]]];
      destruct sv, sp, s; reflexivity.
  - apply Prim2SF_inj in Hsame. subst v. now apply ease_at_rest.
Qed.

Lemma iter_ease_holds (c : Cursory float) (f : float) (n : nat) (t : Trail float) :
  followSpeed (config c) = Some f ->
  is_finite f = true ->
  is_finite (mouseX c) = true ->
  is_finite (mouseY c) = true ->
  ((x t =? mouseX c)%float = true ->
   (x (Nat.iter n (ease c) t) =? mouseX c)%float = true) /\
  ((y t =? mouseY c)%float = true ->
   (y (Nat.iter n (ease c) t) =? mouseY c)%float = true).
Proof.
  intros Hs Hf Hx Hy.
  induction n as [|n [IHx IHy]]; [split; auto|].
  rewrite Nat.iter_succ. set (t' := Nat.iter n (ease c) t) in *.
  change (x (ease c t')) with
    (x t' + (mouseX c - x t') * to_number (followSpeed (config c)))%float.
  change (y (ease c t')) with
    (y t' + (mouseY c - y t') * to_number (followSpeed (config c)))%float.
  rewrite Hs. cbn [to_number].
  split; intros H; apply ease_holds; auto.
Qed.

(** The product of a finite number and a zero is a zero, and adding a
    zero to a finite number gives a number equal to it. *)
Lemma stays_when_factor_zero (v p f : float) :
  is_finite v = true ->
  is_finite (p - v)%float = true ->
  (f =? 0)%float = true ->
  (v + (p - v) * f =? v)%float = true.
Proof.
  intros Hv Hd Hz.
  rewrite eqb_spec in Hz.
  assert (Hf : exists s, Prim2SF f = S754_zero s).
  { destruct (Prim2SF f) as [s|[|]| |[|] m e]; try discriminate; eauto. }
  destruct Hf as [sf Hf].
  rewrite eqb_spec, add_spec, mul_spec, Hf.
  destruct (Prim2SF_finite _ Hd) as [[s ->]|[s [m [e ->]]]];
    destruct (Prim2SF_finite _ Hv) as [[s' Hs']|[s' [m' [e' Hs']]]];
    rewrite Hs'.
  - destruct s, sf, s'; reflexivity.
  - cbn. apply (@SFeqb_refl (S754_finite s' m' e')). right. eauto.
  - destruct s, sf, s'; reflexivity.
  - cbn. apply (@SFeqb_refl (S754_finite s' m' e')). right. eauto.
Qed.

Lemma SF_is_finite (v : float) :
  (exists s, Prim2SF v = S754_zero s) \/
  (exists s m e, Prim2SF v = S754_finite s m e) ->
  is_finite v = true.
Proof.
  intros H. unfold is_finite, is_nan, is_infinity.
  rewrite !eqb_spec, abs_spec.
  destruct H as [[s ->]|[s [m [e ->]]]].
  - reflexivity.
  - rewrite (@SFeqb_refl (S754_finite s m e)) by (right; eauto).
    reflexivity.
Qed.

(** One step with a zero factor: the coordinate is equal to what it was,
    and the step can be taken again. *)
Lemma frozen_step (v p f : float) :
  is_finite v = true ->
  is_finite (p - v)%float = true ->
  (f =? 0)%float = true ->
  let v' := (v + (p - v) * f)%float in
  (v' =? v)%float = true /\
  is_finite v' = true /\
  is_finite (p - v')%float = true.
Proof.
  intros Hv Hd Hz v'.
  split; [now apply stays_when_factor_zero|].
  rewrite eqb_spec in Hz.
  assert (Hf : exists s, Prim2SF f = S754_zero s).
  { destruct (Prim2SF f) as [s|[|]| |[|] m e]; try discriminate; eauto. }
  destruct Hf as [sf Hf].
  assert (Hv' : Prim2SF v' =
                SF64add (Prim2SF v) (SF64mul (Prim2SF (p - v)%float) (S754_zero sf))).
  { unfold v'. rewrite add_spec, mul_spec, Hf. reflexivity. }
  pose proof (Prim2SF_finite _ Hd) as Hcd.
  destruct (Prim2SF_finite _ Hv) as [[s Hs]|[s [m [e Hs]]]].
  - assert (Hz' : exists s', Prim2SF v' = S754_zero s').
    { rewrite Hv', Hs.
      destruct Hcd as [[sd ->]|[sd [md [ed ->]]]];
        destruct s, sd, sf; eexists; reflexivity. }
    destruct Hz' as [s' Hs'].
    split; [apply SF_is_finite; left; eauto|].
    apply SF_is_finite. rewrite sub_spec, Hs'.
    rewrite sub_spec, Hs in Hcd.
    destruct (Prim2SF p) as [sp|sp| |sp mp ep].
    + left. destruct sp, s'; eexists; reflexivity.
    + exfalso. destruct Hcd as [[? H]|[? [? [? H]]]]; destruct sp, s; discriminate.
    + exfalso. destruct Hcd as [[? H]|[? [? [? H]]]]; discriminate.
    + right. do 3 eexists. reflexivity.
  - assert (Hsame : v' = v).
    { apply Prim2SF_inj. rewrite Hv', Hs.
      destruct Hcd as [[sd ->]|[sd [md [ed ->]]]];
        destruct sd, sf; reflexivity. }
    rewrite Hsame. auto.
Qed.

Lemma eqb_finite_trans (a b c : float) :
  is_finite b = true -> is_finite c = true ->
  (a =? b)%float = true -> (b =? c)%float = true -> (a =? c)%float = true.
Proof.
  intros Hb Hc. rewrite !eqb_spec. intros Hab Hbc.
  destruct (SFeqb_finite _ Hab (Prim2SF_finite _ Hb)) as [[[s1 H1] [s2 H2]]|Hsame].
  - destruct (SFeqb_finite _ Hbc (Prim2SF_finite _ Hc)) as [[_ [s3 H3]]|Hsame].
    + rewrite H1, H3. reflexivity.
    + rewrite H1, <- Hsame, H2. reflexivity.
  - rewrite Hsame. exact Hbc.
Qed.

Lemma frozen_steps (v p f : float) (n : nat) :
  is_finite v = true ->
  is_finite (p - v)%float = true ->
  (f =? 0)%float = true ->
  let v' := Nat.iter n (fun u => (u + (p - u) * f)%float) v in
  (v' =? v)%float = true /\
  is_finite v' = true /\
  is_finite (p - v')%float = true.
Proof.
  intros Hv Hd Hz. induction n as [|n (IH1 & IH2 & IH3)].
  - cbn. repeat split; auto.
    rewrite eqb_spec. apply SFeqb_refl. now apply Prim2SF_finite.
  - intros v'. unfold v'. rewrite Nat.iter_succ.
    set (u := Nat.iter n (fun u => (u + (p - u) * f)%float) v) in *.
    destruct (@frozen_step u p f IH2 IH3 Hz) as (H1 & H2 & H3).
    repeat split; auto.
    apply eqb_finite_trans with (b := u); auto.
Qed.

Lemma iter_ease_xy (c : Cursory float) (n : nat) (t : Trail float) :
  x (Nat.iter n (ease c) t) =
    Nat.iter n (fun u => (u + (mouseX c - u) * to_number (followSpeed (config c)))%float) (x t) /\
  y (Nat.iter n (ease c) t) =
    Nat.iter n (fun u => (u + (mouseY c - u) * to_number (followSpeed (config c)))%float) (y t).
Proof.
  induction n as [|n [IHx IHy]]; [split; reflexivity|].
  rewrite !Nat.iter_succ. rewrite <- IHx, <- IHy. split; reflexivity.
Qed.

(** X15.  While the pointer does not move, a marker that has reached it
    stays on it: with a finite [followSpeed] and finite pointer
    coordinates, any number of calls of [animate] in a row return, leave
    the pointer's stored position as it is, and keep every coordinate of
    every marker that equalled the pointer's (as [===] compares numbers)
    equal to it; binary64 rounding never pushes such a marker away. *)
Theorem marker_at_pointer_rests (w : World float) (f : float) (n : nat) :
  followSpeed (config (this w)) = Some f ->
  is_finite f = true ->
  is_finite (mouseX (this w)) = true ->
  is_finite (mouseY (this w)) = true ->
  exists w',
    times n animate w = Normal tt w' /\
    mouseX (this w') = mouseX (this w) /\
    mouseY (this w') = mouseY (this w) /\
    Forall2
      (fun t t' =>
         ((x t =? mouseX (this w))%float = true ->
          (x t' =? mouseX (this w))%float = true) /\
         ((y t =? mouseY (this w))%float = true ->
          (y t' =? mouseY (this w))%float = true))
      (trails (this w)) (trails (this w')).
Proof.
  intros Hs Hf Hx Hy.
  destruct (times_animate n w) as (w' & Hrun & Htr & _ & Hmx & Hmy & _).
  exists w'. repeat split; try assumption.
  rewrite Htr. apply Forall2_map_self. intros t.
  now apply iter_ease_holds with (f := f).
Qed.

(** X16.  [followSpeed: 0] (or [-0]) freezes the trail on binary64: if
    every marker's coordinates are finite and its offsets from the
    pointer do not overflow, any number of calls of [animate] in a row
    return and leave every marker's coordinates equal (as [===] compares
    numbers) to what they were. *)
Theorem followSpeed_zero_freezes_markers (w : World float) (f : float) (n : nat) :
  followSpeed (config (this w)) = Some f ->
  (f =? 0)%float = true ->
  Forall
    (fun t =>
       is_finite (x t) = true /\ is_finite (y t) = true /\
       is_finite (mouseX (this w) - x t)%float = true /\
       is_finite (mouseY (this w) - y t)%float = true)
    (trails (this w)) ->
  exists w',
    times n animate w = Normal tt w' /\
    Forall2
      (fun t t' =>
         (x t' =? x t)%float = true /\ (y t' =? y t)%float = true)
      (trails (this w)) (trails (this w')).
Proof.
  intros Hs Hz Hfin.
  destruct (times_animate n w) as (w' & Hrun & Htr & _).
  exists w'. split; [exact Hrun|].
  rewrite Htr. apply Forall2_map_when with (1 := Hfin).
  intros t (Hx & Hy & Hdx & Hdy).
  destruct (iter_ease_xy (this w) n t) as [-> ->].
  rewrite Hs. cbn [to_number].
  split; [now apply (@frozen_steps _ _ f n Hx Hdx Hz) | now apply (@frozen_steps _ _ f n Hy Hdy Hz)].
Qed.

End Binary64Ticks.

(** * Runs of these statements on binary64 numbers *)

Section Binary64Runs.

Lemma only_updateConfig_throws_witness :
  let o := UpdateConfig (only_trailLength (-1)) in
  let w' := world_of (step o (run [Init (only_trailLength 2)] World0)) in
  TypeError = TypeError /\
  (exists cfg, o = UpdateConfig cfg) /\
  isInitialized (this w') = true /\
  trails (this w') = [] /\
  body (window w') = [].
Proof.
  cbv zeta.
  refine (@only_updateConfig_throws float _ [Init (only_trailLength 2)]
            (UpdateConfig (only_trailLength (-1))) TypeError _ _).
  vm_compute. reflexivity.
Defined.

Lemma updateConfig_resizes_at_the_end_witness :
  let w := run [Init (only_trailLength 3)] World0 in
  let cfg := only_trailLength 1 in
  let w' := world_of (updateConfig cfg w) in
  exists m kept removed created,
    maxTrails (this w) = Some m /\
    map (restyle (spread (config (this w)) cfg)) (trails (this w)) =
      kept ++ removed /\
    trails (this w') = kept ++ created /\
    Forall (fun t => x t = mouseX (this w) /\ y t = mouseY (this w)) created /\
    (removed = [] \/ created = []) /\
    (Z.of_nat (length created) - Z.of_nat (length removed) =
     match trailLength cfg with
     | Some k => if (k =? 0)%Z then 0 else k - m
     | None => 0
     end)%Z.
Proof.
  cbv zeta.
  refine (@updateConfig_resizes_at_the_end float _ [Init (only_trailLength 3)]
            (only_trailLength 1) _ _ _).
  - reflexivity.
  - vm_compute. reflexivity.
Defined.

Lemma updateConfig_twice_is_once_witness :
  let w1 := world_of (updateConfig (only_trailLength 2)
                        (run [Init empty_config] World0)) in
  updateConfig (only_trailLength 2) w1 = Normal tt w1.
Proof.
  cbv zeta.
  refine (@updateConfig_twice_is_once float (only_trailLength 2)
            (run [Init empty_config] World0) _ _).
  vm_compute. reflexivity.
Defined.

Lemma updateConfig_appearance_merges_witness :
  let cfg1 := mkConfig (Some "#00ff00"%string) None None (Some 12%float) None None in
  let cfg2 := mkConfig None None None (Some 8%float) (Some 0.5%float) None in
  let w := run [Init empty_config] World0 in
  updateConfig cfg2 (world_of (updateConfig cfg1 w)) =
  updateConfig (spread cfg1 cfg2) w.
Proof.
  cbv zeta.
  refine (@updateConfig_appearance_merges float _ _ _ _ _); reflexivity.
Defined.

Lemma one_frame_loop_witness :
  looping
    (run [Init empty_config; Frame;
          MouseMove (mkMouseEvent 3%float 4%float); Frame;
          UpdateConfig (only_trailLength 2); Destroy; Frame;
          Init (only_trailLength 1); TrackMouse (mkMouseEvent 1%float 1%float)]
       World0).
Proof.
  refine (@one_frame_loop float _ _ _).
  vm_compute. repeat split.
Defined.

Lemma markers_show_the_state_witness :
  let w := run [Init empty_config; Animate;
                MouseMove (mkMouseEvent 3%float 4%float); Frame;
                UpdateConfig (mkConfig (Some "#00ff00"%string) (Some 12%Z) None
                                (Some 8%float) None None)]
             World0 in
  Forall (dressed (config (this w))) (trails (this w)).
Proof.
  cbv zeta.
  refine (@markers_show_the_state float _ _ _).
  vm_compute. repeat split.
Defined.

Lemma marker_at_pointer_rests_witness :
  let w := run [Init empty_config] World0 in
  exists w',
    times 3 animate w = Normal tt w' /\
    mouseX (this w') = mouseX (this w) /\
    mouseY (this w') = mouseY (this w) /\
    Forall2
      (fun t t' =>
         ((x t =? mouseX (this w))%float = true ->
          (x t' =? mouseX (this w))%float = true) /\
         ((y t =? mouseY (this w))%float = true ->
          (y t' =? mouseY (this w))%float = true))
      (trails (this w)) (trails (this w')).
Proof.
  cbv zeta.
  refine (@marker_at_pointer_rests (run [Init empty_config] World0)
            lit_0_2 3 _ _ _ _); reflexivity.
Defined.

Lemma followSpeed_zero_freezes_markers_witness :
  let w := run [Init stalled_config;
                MouseMove (mkMouseEvent 3%float 4%float)] World0 in
  exists w',
    times 5 animate w = Normal tt w' /\
    Forall2
      (fun t t' =>
         (x t' =? x t)%float = true /\ (y t' =? y t)%float = true)
      (trails (this w)) (trails (this w')).
Proof.
  cbv zeta.
  refine (@followSpeed_zero_freezes_markers
            (run [Init stalled_config;
                  MouseMove (mkMouseEvent 3%float 4%float)] World0)
            0%float 5 _ _ _).
  - reflexivity.
  - reflexivity.
  - vm_compute. repeat constructor.
Defined.

End Binary64Runs.

(** * The controller in exact arithmetic *)

Section Exact.

Open Scope R_scope.




(** ** A controller that never catches up *)




End Exact.

(** * Ticks of the animation in exact arithmetic *)

Section ExactTicks.

Open Scope R_scope.







End ExactTicks.

(** * Runs of these statements in exact arithmetic *)

Section ExactRuns.

Open Scope R_scope.



End ExactRuns.
